(** * Storage-engine descriptors of clickhouse-sqlalchemy (engines.py)

    A shallow embedding of [src/engines.py]: the engine classes, the two
    column-descriptor helpers [TableCol] and [KeysExpressionOrColumn], and
    the parts of SQLAlchemy's schema layer that they inherit
    ([ColumnCollection], [ColumnCollectionMixin]).

    Python objects are records, one module per class.  A method is a
    function of the receiver that returns either the raised exception or
    the result, together with the receiver as the call left it, so that
    attribute assignments done before a [raise] stay visible. *)

From Stdlib Require Import String List ZArith Bool Lia.
Import ListNotations.
Open Scope string_scope.
Open Scope list_scope.

(** ** Exceptions and methods *)

(** The exceptions that the modelled code can raise. *)
Inductive PyExc : Type :=
| IndexError                      (* [list(...)[0]] on an empty list *)
| KeyError (key : string)         (* [table.c[name]] for an unknown name *)
| EscapeError                     (* [escape_string] applied to [None] *)
| NotImplementedError
| Exception (msg : string).

(** [Method Self A]: a method of an object of type [Self] returning [A]. *)
Definition Method (Self A : Type) : Type := Self -> (PyExc + A) * Self.

Definition ret {Self A} (a : A) : Method Self A :=
  fun self => (inr a, self).

Definition raise {Self A} (e : PyExc) : Method Self A :=
  fun self => (inl e, self).

Definition bind {Self A B} (m : Method Self A) (k : A -> Method Self B)
  : Method Self B :=
  fun self =>
    match m self with
    | (inl e, self') => (inl e, self')
    | (inr a, self') => k a self'
    end.

(** Read an attribute: [self.f]. *)
Definition attr {Self A} (f : Self -> A) : Method Self A :=
  fun self => (inr (f self), self).

(** Assign attributes: [self.f = v]. *)
Definition assign {Self} (upd : Self -> Self) : Method Self unit :=
  fun self => (inr tt, upd self).

(** Call a method of the object held in an attribute: [self.f.m(...)]. *)
Definition on_attr {Self Child A} (get : Self -> Child)
    (set : Child -> Self -> Self) (m : Method Child A) : Method Self A :=
  fun self => let '(r, child) := m (get self) in (r, set child self).

Declare Scope method_scope.
Delimit Scope method_scope with method.
Notation "x <- m ;; k" := (bind m (fun x => k))
  (at level 61, m at next level, right associativity) : method_scope.
Notation "m ;;; k" := (bind m (fun _ => k))
  (at level 61, right associativity) : method_scope.
Open Scope method_scope.

(** Build a list from attributes of the receiver: [[self.a, self.b, ...]]. *)
Definition ret_attrs {Self A} (fs : list (Self -> A)) : Method Self (list A) :=
  fun self => (inr (map (fun f => f self) fs), self).

(** The value of a keyword argument: the default when it was left out. *)
Definition default {A} (d : A) (given : option A) : A :=
  match given with
  | Some v => v
  | None => d
  end.

(** The outcome of a call and the receiver after it. *)
Definition outcome {Self A} (m : Method Self A) (self : Self) : PyExc + A :=
  fst (m self).
Definition after {Self A} (m : Method Self A) (self : Self) : Self :=
  snd (m self).

(** A method is read-only when no call changes its receiver. *)
Definition read_only {Self A} (m : Method Self A) : Prop :=
  forall self, after m self = self.

(** Python truthiness of an optional string ([None] and [''] are false). *)
Definition truthy (v : option string) : bool :=
  match v with
  | None => false
  | Some s => negb (s =? "")
  end.

(** ** Columns, tables and SQL expressions (SQLAlchemy values) *)

(** A column object: its key and the table it is bound to, if any. *)
Record Column : Type := { key : string; bound_to : option string }.

(** A table under construction: its name and its column collection [c]. *)
Record Table : Type := { table_name : string; c : list Column }.

(** [table.c[name]]; [None] stands for the [KeyError]. *)
Definition c_getitem (table : Table) (name : string) : option Column :=
  find (fun col => key col =? name) (c table).

(** A SQL expression ([ClauseElement]).  It is opaque except for the
    column objects that [visitors.traverse(expr, {}, {'column': ...})]
    collects from it, in traversal order. *)
Record ClauseElement : Type :=
  { sql : string; traversed_columns : list Column }.

(** An item of [*expressions]: a bare column name or a SQL expression. *)
Inductive KeyArg : Type :=
| ArgName (name : string)
| ArgClause (expr : ClauseElement).

(** What [ColumnCollectionMixin] keeps in [_pending_colargs]: the result of
    [_to_schema_column_or_string], a name or a column object. *)
Inductive ColArg : Type :=
| ColName (name : string)
| ColObject (col : Column).

(** A slot of [get_expressions_or_columns()]: an expression passed
    through, a column, or [None] (the fill value of [zip_longest]). *)
Inductive Item : Type :=
| IClause (expr : ClauseElement)
| IColumn (col : Column)
| INone.

(** [util.zip_longest] (itertools): the shorter side is padded with
    [None]. *)
Fixpoint zip_longest {A B} (xs : list A) (ys : list B)
  : list (option A * option B) :=
  match xs with
  | [] => map (fun y => (None, Some y)) ys
  | x :: xs' =>
      match ys with
      | [] => (Some x, None) :: zip_longest xs' []
      | y :: ys' => (Some x, Some y) :: zip_longest xs' ys'
      end
  end.

(** [sqlalchemy.sql.base.ColumnCollection]: an ordered dictionary from
    column keys to columns.  Iterating it yields the values in the order
    in which their keys were first added. *)
Module ColumnCollection.

Definition t : Type := list (string * Column).

Definition empty : t := [].

(** [self[key] = value] on the ordered dictionary. *)
Fixpoint setitem (k : string) (v : Column) (d : t) : t :=
  match d with
  | [] => [(k, v)]
  | (k', v') :: d' =>
      if k' =? k then (k, v) :: d' else (k', v') :: setitem k v d'
  end.

(** [add(column)]: [self[column.key] = column]. *)
Definition add (col : Column) (d : t) : t := setitem (key col) col d.

(** [list(self)]. *)
Definition to_list (d : t) : list Column := map snd d.

End ColumnCollection.

(** [sqlalchemy.sql.schema.ColumnCollectionMixin], on the path the engines
    use: the constructor records the arguments, [_set_parent] resolves the
    names against the table and adds every column to [columns].

    The constructor also runs [_check_attach()]: when one of the arguments
    is a column object that is already bound to a table, it calls
    [_set_parent] with that table at once, which binds the columns at
    construction and raises for a name that table lacks.  This is not part
    of the model.  [__init__] below is the constructor on arguments none of
    which is a table-bound column (see [no_bound_column]); statements
    about what a constructor returns for given arguments carry that
    condition, the others start from a descriptor that was returned. *)
Module ColumnCollectionMixin.

Record t : Type :=
  { columns : ColumnCollection.t; _pending_colargs : list ColArg }.

Definition set_columns (v : ColumnCollection.t) (self : t) : t :=
  {| columns := v; _pending_colargs := _pending_colargs self |}.

Definition __init__ (cols : list ColArg) : t :=
  {| columns := ColumnCollection.empty; _pending_colargs := cols |}.

(** The body of [for col in self._pending_colargs]. *)
Definition resolve (table : Table) (col : ColArg) : Method t Column :=
  match col with
  | ColName name =>
      match c_getitem table name with
      | Some found => ret found
      | None => raise (KeyError name)
      end
  | ColObject found => ret found
  end.

Fixpoint add_all (table : Table) (pending : list ColArg) : Method t unit :=
  match pending with
  | [] => ret tt
  | col :: rest =>
      found <- resolve table col ;;
      assign (fun self =>
                set_columns (ColumnCollection.add found (columns self)) self)
      ;;;
      add_all table rest
  end.

Definition _set_parent (table : Table) : Method t unit :=
  pending <- attr _pending_colargs ;;
  add_all table pending.

(** [_extract_col_expression_collection], one element: the tuple
    [(expr, column, strname, add_element)]. *)
Definition extract_one (expr : KeyArg)
  : KeyArg * option Column * option string * option ColArg :=
  match expr with
  | ArgName name => (expr, None, Some name, Some (ColName name))
  | ArgClause e =>
      let column := hd_error (traversed_columns e) in
      (expr, column, None, option_map ColObject column)
  end.

Definition _extract_col_expression_collection (expressions : list KeyArg)
  : list (KeyArg * option Column * option string * option ColArg) :=
  map extract_one expressions.

End ColumnCollectionMixin.

(** ** engines.py *)

(** [class TableCol(ColumnCollectionMixin, SchemaItem)]: no attribute of
    its own. *)
Module TableCol.

Definition t : Type := ColumnCollectionMixin.t.

Definition __init__ (column : ColArg) : t :=
  ColumnCollectionMixin.__init__ [column].

Definition _set_parent (table : Table) : Method t unit :=
  ColumnCollectionMixin._set_parent table.

(** [return list(self.columns)[0]] *)
Definition get_column : Method t Column :=
  cols <- attr (fun self =>
                  ColumnCollection.to_list
                    (ColumnCollectionMixin.columns self)) ;;
  match cols with
  | [] => raise IndexError
  | first :: _ => ret first
  end.

End TableCol.

(** [class KeysExpressionOrColumn(ColumnCollectionMixin, SchemaItem)] *)
Module KeysExpressionOrColumn.

Record t : Type :=
  { super : ColumnCollectionMixin.t; expressions : list KeyArg }.

Definition set_super (v : ColumnCollectionMixin.t) (self : t) : t :=
  {| super := v; expressions := expressions self |}.

(** The loop of [__init__]: [columns] and [self.expressions] after it. *)
Fixpoint collect
    (extracted : list (KeyArg * option Column * option string * option ColArg))
  : list ColArg * list KeyArg :=
  match extracted with
  | [] => ([], [])
  | (expr, _, _, add_element) :: rest =>
      let '(columns, exprs) := collect rest in
      (match add_element with
       | Some element => element :: columns
       | None => columns
       end, expr :: exprs)
  end.

Definition __init__ (expressions : list KeyArg) : t :=
  let '(columns, exprs) :=
    collect
      (ColumnCollectionMixin._extract_col_expression_collection expressions) in
  {| super := ColumnCollectionMixin.__init__ columns; expressions := exprs |}.

Definition _set_parent (table : Table) : Method t unit :=
  on_attr super set_super (ColumnCollectionMixin._set_parent table).

(** [expr if isinstance(expr, ClauseElement) else colexpr] *)
Definition pick (pair : option KeyArg * option Column) : Item :=
  match pair with
  | (Some (ArgClause e), _) => IClause e
  | (_, Some col) => IColumn col
  | (_, None) => INone
  end.

Definition get_expressions_or_columns : Method t (list Item) :=
  exprs <- attr expressions ;;
  cols <- attr (fun self =>
                  ColumnCollection.to_list
                    (ColumnCollectionMixin.columns (super self))) ;;
  ret (map pick (zip_longest exprs cols)).

End KeysExpressionOrColumn.

(** [from .drivers.escaper import Escaper; escaper = Escaper()].  The
    escaper is not part of engines.py; only its [escape_string] is used, as
    a function from strings to strings. *)
Class Escaper : Type := { escape_string : string -> string }.

(** The runtime class of an engine object, for [self.__class__.__name__]. *)
Inductive PyClass : Type :=
| ClsEngine
| ClsMergeTree
| ClsCollapsingMergeTree
| ClsSummingMergeTree
| ClsBuffer
| ClsMemory
| ClsMerge.

Definition __name__ (cls : PyClass) : string :=
  match cls with
  | ClsEngine => "Engine"
  | ClsMergeTree => "MergeTree"
  | ClsCollapsingMergeTree => "CollapsingMergeTree"
  | ClsSummingMergeTree => "SummingMergeTree"
  | ClsBuffer => "Buffer"
  | ClsMemory => "Memory"
  | ClsMerge => "Merge"
  end.

(** An element of the list that [get_params()] returns. *)
Inductive Param : Type :=
| PString (s : string)
| PInt (z : Z)
| PItem (item : Item)
| PTuple (items : list Item).

(** [class Engine(SchemaEventTarget, Visitable)] *)
Module Engine.

(** [table] is [None] until [_set_parent] assigns it. *)
Record t : Type := { __class__ : PyClass; table : option Table }.

Definition __init__ (cls : PyClass) : t :=
  {| __class__ := cls; table := None |}.

Definition get_params : Method t (list Param) :=
  raise NotImplementedError.

Definition name : Method t string :=
  cls <- attr __class__ ;;
  ret (__name__ cls).

(** [self.table = table; self.table.engine = self]: the second
    assignment writes to the table, which no method here reads back. *)
Definition _set_parent (tbl : Table) : Method t unit :=
  assign (fun self => {| __class__ := __class__ self; table := Some tbl |}).

End Engine.

(** [class MergeTree(Engine)] *)
Module MergeTree.

Record t : Type :=
  { super : Engine.t;
    date_col : TableCol.t;
    key_cols : KeysExpressionOrColumn.t;
    sampling : option KeysExpressionOrColumn.t;
    index_granularity : Z;
    replica_name : option string;
    replica_table_path : option string }.

Definition set_super (v : Engine.t) (self : t) : t :=
  {| super := v; date_col := date_col self; key_cols := key_cols self;
     sampling := sampling self; index_granularity := index_granularity self;
     replica_name := replica_name self;
     replica_table_path := replica_table_path self |}.

Definition set_date_col (v : TableCol.t) (self : t) : t :=
  {| super := super self; date_col := v; key_cols := key_cols self;
     sampling := sampling self; index_granularity := index_granularity self;
     replica_name := replica_name self;
     replica_table_path := replica_table_path self |}.

Definition set_key_cols (v : KeysExpressionOrColumn.t) (self : t) : t :=
  {| super := super self; date_col := date_col self; key_cols := v;
     sampling := sampling self; index_granularity := index_granularity self;
     replica_name := replica_name self;
     replica_table_path := replica_table_path self |}.

Definition set_sampling (v : KeysExpressionOrColumn.t) (self : t) : t :=
  {| super := super self; date_col := date_col self; key_cols := key_cols self;
     sampling := Some v; index_granularity := index_granularity self;
     replica_name := replica_name self;
     replica_table_path := replica_table_path self |}.

(** The condition of the [raise] in [__init__]:
    [replica_table_path and not replica_name or
     (not replica_table_path and replica_name)]. *)
Definition half_replicated (replica_name replica_table_path : option string)
  : bool :=
  (truthy replica_table_path && negb (truthy replica_name))
  || (negb (truthy replica_table_path) && truthy replica_name).

(** [__init__], run on an instance of class [cls] (a subclass calls it
    through [super]).  Omitted keyword arguments are [None]. *)
Definition __init__ (cls : PyClass) (date_col : ColArg)
    (key_expressions : list KeyArg) (sampling : option KeyArg)
    (index_granularity : option Z)
    (replica_name replica_table_path : option string) : PyExc + t :=
  let date := TableCol.__init__ date_col in
  let keys := KeysExpressionOrColumn.__init__ key_expressions in
  let samp :=
    match sampling with
    | Some s => Some (KeysExpressionOrColumn.__init__ [s])
    | None => None
    end in
  let granularity :=
    match index_granularity with
    | Some g => g
    | None => 8192%Z
    end in
  if half_replicated replica_name replica_table_path
  then inl (Exception "Need both or no one [replica_path, replica_name]")
  else inr {| super := Engine.__init__ cls;
              date_col := date; key_cols := keys; sampling := samp;
              index_granularity := granularity;
              replica_name := replica_name;
              replica_table_path := replica_table_path |}.

Definition _set_parent (tbl : Table) : Method t unit :=
  on_attr super set_super (Engine._set_parent tbl) ;;;
  on_attr date_col set_date_col (TableCol._set_parent tbl) ;;;
  on_attr key_cols set_key_cols (KeysExpressionOrColumn._set_parent tbl) ;;;
  samp <- attr sampling ;;
  match samp with
  | Some s =>
      on_attr (fun _ => s) set_sampling (KeysExpressionOrColumn._set_parent tbl)
  | None => ret tt
  end.

(** [map(escaper.escape_string, [self.replica_table_path,
    self.replica_name])]; [__init__] lets no object through on which one
    of the two is [None] while [replica_name] is true. *)
Definition escaped_coordinates `{Escaper} : Method t (list Param) :=
  path <- attr replica_table_path ;;
  name <- attr replica_name ;;
  match path, name with
  | Some p, Some n =>
      ret [PString (escape_string p); PString (escape_string n)]
  | _, _ => raise EscapeError
  end.

(** [self.sampling.get_expressions_or_columns()[0]] *)
Definition sampling_item (s : KeysExpressionOrColumn.t) : Method t Item :=
  items <- on_attr (fun _ => s) set_sampling
             KeysExpressionOrColumn.get_expressions_or_columns ;;
  match items with
  | [] => raise IndexError
  | first :: _ => ret first
  end.

Definition get_params `{Escaper} : Method t (list Param) :=
  name <- attr replica_name ;;
  params <- (if truthy name then escaped_coordinates else ret []) ;;
  date <- on_attr date_col set_date_col TableCol.get_column ;;
  let params := params ++ [PItem (IColumn date)] in
  samp <- attr sampling ;;
  params <- match samp with
            | Some s => item <- sampling_item s ;; ret (params ++ [PItem item])
            | None => ret params
            end ;;
  keys <- on_attr key_cols set_key_cols
            KeysExpressionOrColumn.get_expressions_or_columns ;;
  granularity <- attr index_granularity ;;
  ret (params ++ [PTuple keys] ++ [PInt granularity]).

Definition name : Method t string :=
  replica <- attr replica_name ;;
  cls <- attr (fun self => Engine.__class__ (super self)) ;;
  ret (String.append (if truthy replica then "Replicated" else "")
                      (__name__ cls)).

End MergeTree.

(** [class CollapsingMergeTree(MergeTree)] *)
Module CollapsingMergeTree.

Record t : Type := { super : MergeTree.t; sign_col : TableCol.t }.

Definition set_super (v : MergeTree.t) (self : t) : t :=
  {| super := v; sign_col := sign_col self |}.

Definition set_sign_col (v : TableCol.t) (self : t) : t :=
  {| super := super self; sign_col := v |}.

Definition __init__ (date_col : ColArg) (key_expressions : list KeyArg)
    (sign_col : ColArg) (sampling : option KeyArg)
    (index_granularity : option Z) : PyExc + t :=
  match MergeTree.__init__ ClsCollapsingMergeTree date_col key_expressions
          sampling index_granularity None None with
  | inl e => inl e
  | inr base => inr {| super := base; sign_col := TableCol.__init__ sign_col |}
  end.

Definition get_params `{Escaper} : Method t (list Param) :=
  params <- on_attr super set_super MergeTree.get_params ;;
  sign <- on_attr sign_col set_sign_col TableCol.get_column ;;
  ret (params ++ [PItem (IColumn sign)]).

Definition _set_parent (tbl : Table) : Method t unit :=
  on_attr super set_super (MergeTree._set_parent tbl) ;;;
  on_attr sign_col set_sign_col (TableCol._set_parent tbl).

(** Inherited from [MergeTree]. *)
Definition name : Method t string :=
  on_attr super set_super MergeTree.name.

End CollapsingMergeTree.

(** [class SummingMergeTree(MergeTree)] *)
Module SummingMergeTree.

Record t : Type :=
  { super : MergeTree.t; summing_cols : option KeysExpressionOrColumn.t }.

Definition set_super (v : MergeTree.t) (self : t) : t :=
  {| super := v; summing_cols := summing_cols self |}.

Definition set_summing_cols (v : KeysExpressionOrColumn.t) (self : t) : t :=
  {| super := super self; summing_cols := Some v |}.

Definition __init__ (date_col : ColArg) (key_expressions : list KeyArg)
    (summing_cols : option (list KeyArg)) (sampling : option KeyArg)
    (index_granularity : option Z) : PyExc + t :=
  match MergeTree.__init__ ClsSummingMergeTree date_col key_expressions
          sampling index_granularity None None with
  | inl e => inl e
  | inr base =>
      inr {| super := base;
             summing_cols :=
               match summing_cols with
               | Some cols => Some (KeysExpressionOrColumn.__init__ cols)
               | None => None
               end |}
  end.

Definition _set_parent (tbl : Table) : Method t unit :=
  on_attr super set_super (MergeTree._set_parent tbl) ;;;
  summing <- attr summing_cols ;;
  match summing with
  | Some s =>
      on_attr (fun _ => s) set_summing_cols
        (KeysExpressionOrColumn._set_parent tbl)
  | None => ret tt
  end.

Definition get_params `{Escaper} : Method t (list Param) :=
  params <- on_attr super set_super MergeTree.get_params ;;
  summing <- attr summing_cols ;;
  match summing with
  | Some s =>
      items <- on_attr (fun _ => s) set_summing_cols
                 KeysExpressionOrColumn.get_expressions_or_columns ;;
      ret (params ++ [PTuple items])
  | None => ret params
  end.

(** Inherited from [MergeTree]. *)
Definition name : Method t string :=
  on_attr super set_super MergeTree.name.

End SummingMergeTree.

(** [class Buffer(Engine)] *)
Module Buffer.

Record t : Type :=
  { super : Engine.t;
    database : string;
    table_name : string;
    num_layers : Z;
    min_time : Z;
    max_time : Z;
    min_rows : Z;
    max_rows : Z;
    min_bytes : Z;
    max_bytes : Z }.

Definition set_super (v : Engine.t) (self : t) : t :=
  {| super := v; database := database self; table_name := table_name self;
     num_layers := num_layers self; min_time := min_time self;
     max_time := max_time self; min_rows := min_rows self;
     max_rows := max_rows self; min_bytes := min_bytes self;
     max_bytes := max_bytes self |}.

(** A keyword argument left out takes the default of the signature. *)
Definition __init__ (database table : string)
    (num_layers min_time max_time min_rows max_rows min_bytes max_bytes
       : option Z) : t :=
  {| super := Engine.__init__ ClsBuffer;
     database := database;
     table_name := table;
     num_layers := default 16%Z num_layers;
     min_time := default 10%Z min_time;
     max_time := default 100%Z max_time;
     min_rows := default 10000%Z min_rows;
     max_rows := default 1000000%Z max_rows;
     min_bytes := default 10000000%Z min_bytes;
     max_bytes := default 100000000%Z max_bytes |}.

Definition get_params : Method t (list Param) :=
  ret_attrs
    [ (fun self => PString (database self));
      (fun self => PString (table_name self));
      (fun self => PInt (num_layers self));
      (fun self => PInt (min_time self));
      (fun self => PInt (max_time self));
      (fun self => PInt (min_rows self));
      (fun self => PInt (max_rows self));
      (fun self => PInt (min_bytes self));
      (fun self => PInt (max_bytes self)) ].

Definition name : Method t string := on_attr super set_super Engine.name.

Definition _set_parent (tbl : Table) : Method t unit :=
  on_attr super set_super (Engine._set_parent tbl).

End Buffer.

(** [class Memory(Engine)] *)
Module Memory.

Record t : Type := { super : Engine.t }.

Definition set_super (v : Engine.t) (self : t) : t := {| super := v |}.

Definition __init__ : t := {| super := Engine.__init__ ClsMemory |}.

Definition get_params : Method t (list Param) := ret [].

Definition name : Method t string := on_attr super set_super Engine.name.

Definition _set_parent (tbl : Table) : Method t unit :=
  on_attr super set_super (Engine._set_parent tbl).

End Memory.

(** [class Merge(Engine)] *)
Module Merge.

Record t : Type := { super : Engine.t; db : string; regexp : string }.

Definition set_super (v : Engine.t) (self : t) : t :=
  {| super := v; db := db self; regexp := regexp self |}.

Definition __init__ (db regexp : string) : t :=
  {| super := Engine.__init__ ClsMerge; db := db; regexp := regexp |}.

Definition get_params `{Escaper} : Method t (list Param) :=
  d <- attr db ;;
  r <- attr regexp ;;
  ret [PString d; PString (escape_string r)].

Definition name : Method t string := on_attr super set_super Engine.name.

Definition _set_parent (tbl : Table) : Method t unit :=
  on_attr super set_super (Engine._set_parent tbl).

End Merge.

(** ** Engine descriptors: the closed set of classes, with method
    dispatch on the runtime class *)
Inductive EngineObject : Type :=
| AMergeTree (e : MergeTree.t)
| ACollapsingMergeTree (e : CollapsingMergeTree.t)
| ASummingMergeTree (e : SummingMergeTree.t)
| ABuffer (e : Buffer.t)
| AMemory (e : Memory.t)
| AMerge (e : Merge.t).

Definition dispatch {Self A} (wrap : Self -> EngineObject)
    (m : Method Self A) (self : Self) : (PyExc + A) * EngineObject :=
  let '(r, self') := m self in (r, wrap self').

Definition get_params `{Escaper} : Method EngineObject (list Param) :=
  fun obj =>
    match obj with
    | AMergeTree e => dispatch AMergeTree MergeTree.get_params e
    | ACollapsingMergeTree e =>
        dispatch ACollapsingMergeTree CollapsingMergeTree.get_params e
    | ASummingMergeTree e =>
        dispatch ASummingMergeTree SummingMergeTree.get_params e
    | ABuffer e => dispatch ABuffer Buffer.get_params e
    | AMemory e => dispatch AMemory Memory.get_params e
    | AMerge e => dispatch AMerge Merge.get_params e
    end.

Definition name : Method EngineObject string :=
  fun obj =>
    match obj with
    | AMergeTree e => dispatch AMergeTree MergeTree.name e
    | ACollapsingMergeTree e =>
        dispatch ACollapsingMergeTree CollapsingMergeTree.name e
    | ASummingMergeTree e => dispatch ASummingMergeTree SummingMergeTree.name e
    | ABuffer e => dispatch ABuffer Buffer.name e
    | AMemory e => dispatch AMemory Memory.name e
    | AMerge e => dispatch AMerge Merge.name e
    end.

Definition _set_parent (tbl : Table) : Method EngineObject unit :=
  fun obj =>
    match obj with
    | AMergeTree e => dispatch AMergeTree (MergeTree._set_parent tbl) e
    | ACollapsingMergeTree e =>
        dispatch ACollapsingMergeTree (CollapsingMergeTree._set_parent tbl) e
    | ASummingMergeTree e =>
        dispatch ASummingMergeTree (SummingMergeTree._set_parent tbl) e
    | ABuffer e => dispatch ABuffer (Buffer._set_parent tbl) e
    | AMemory e => dispatch AMemory (Memory._set_parent tbl) e
    | AMerge e => dispatch AMerge (Merge._set_parent tbl) e
    end.

(** ** Notions used in the statements *)

(** The column that a column argument denotes in a table: the table's
    column of that name, or the column object itself. *)
Definition resolved (tbl : Table) (col : ColArg) : option Column :=
  match col with
  | ColName name => c_getitem tbl name
  | ColObject found => Some found
  end.

(** A MergeTree descriptor is replicated when its [replica_name] is true:
    the test of [get_params] and of [name]. *)
Definition replicated (e : MergeTree.t) : bool :=
  truthy (MergeTree.replica_name e).

(** An optional argument was supplied (is not [None]). *)
Definition present {A} (v : option A) : bool :=
  match v with
  | Some _ => true
  | None => false
  end.

(** The MergeTree part of a descriptor of the MergeTree family. *)
Definition family_base (obj : EngineObject) : option MergeTree.t :=
  match obj with
  | AMergeTree e => Some e
  | ACollapsingMergeTree e => Some (CollapsingMergeTree.super e)
  | ASummingMergeTree e => Some (SummingMergeTree.super e)
  | ABuffer _ | AMemory _ | AMerge _ => None
  end.

(** The runtime class name of a MergeTree-family object. *)
Definition base_name (e : MergeTree.t) : string :=
  __name__ (Engine.__class__ (MergeTree.super e)).

(** A column object that is bound to a table: [isinstance(c.table,
    Table)], the test of [_check_attach()]. *)
Definition table_bound (col : Column) : bool := present (bound_to col).

(** The argument makes the constructor of its column descriptor attach at
    once: it is a table-bound column object, or an expression whose first
    column object is one. *)
Definition col_is_bound (col : ColArg) : bool :=
  match col with
  | ColName _ => false
  | ColObject found => table_bound found
  end.

Definition key_adds_bound_column (arg : KeyArg) : bool :=
  match arg with
  | ArgName _ => false
  | ArgClause e =>
      match hd_error (traversed_columns e) with
      | Some found => table_bound found
      | None => false
      end
  end.

(** No argument of the key is or adds a table-bound column. *)
Definition key_free_of_bound_columns (args : list KeyArg) : bool :=
  forallb (fun arg => negb (key_adds_bound_column arg)) args.

(** None of the column arguments of a MergeTree is or adds a table-bound
    column: then the constructors of the column descriptors only record
    their arguments, and nothing but the replication check can raise in
    [MergeTree.__init__]. *)
Definition no_bound_column (date_col : ColArg) (key_expressions : list KeyArg)
    (sampling : option KeyArg) : bool :=
  negb (col_is_bound date_col)
  && key_free_of_bound_columns key_expressions
  && match sampling with
     | Some arg => negb (key_adds_bound_column arg)
     | None => true
     end.

(** The column that a key argument adds to the column collection: the
    table's column of that name, or the first column object found in the
    expression. *)
Definition contributed (tbl : Table) (arg : KeyArg) : option Column :=
  match arg with
  | ArgName name => c_getitem tbl name
  | ArgClause e => hd_error (traversed_columns e)
  end.

(** The slot that a key argument should render to, given its column. *)
Definition slot (arg : KeyArg) (col : Column) : Item :=
  match arg with
  | ArgClause e => IClause e
  | ArgName _ => IColumn col
  end.

(** The table has a column of that name. *)
Definition known (tbl : Table) (name : string) : bool :=
  match c_getitem tbl name with
  | Some _ => true
  | None => false
  end.

(** The first of the names that the table lacks. *)
Definition first_unknown (tbl : Table) (names : list string) : option string :=
  find (fun name => negb (known tbl name)) names.

(** The bare names among column arguments and among key arguments, in
    order. *)
Definition names_of_col (col : ColArg) : list string :=
  match col with
  | ColName name => [name]
  | ColObject _ => []
  end.

Definition names_of_key (args : list KeyArg) : list string :=
  flat_map (fun arg => match arg with
                       | ArgName name => [name]
                       | ArgClause _ => []
                       end) args.

Definition names_of_sampling (sampling : option KeyArg) : list string :=
  match sampling with
  | Some arg => names_of_key [arg]
  | None => []
  end.

(** Looking the names up in order: the [KeyError] of the first unknown
    one, or success. *)
Definition lookup_all (tbl : Table) (names : list string) : PyExc + unit :=
  match first_unknown tbl names with
  | Some name => inl (KeyError name)
  | None => inr tt
  end.

(** The [table] attribute of an engine object. *)
Definition table_of (obj : EngineObject) : option Table :=
  match obj with
  | AMergeTree e => Engine.table (MergeTree.super e)
  | ACollapsingMergeTree e =>
      Engine.table (MergeTree.super (CollapsingMergeTree.super e))
  | ASummingMergeTree e =>
      Engine.table (MergeTree.super (SummingMergeTree.super e))
  | ABuffer e => Engine.table (Buffer.super e)
  | AMemory e => Engine.table (Memory.super e)
  | AMerge e => Engine.table (Merge.super e)
  end.

(** Two parameter lists that differ at most in the two leading
    replication coordinates. *)
Definition same_beyond_coordinates (is_replicated : bool)
    (first second : PyExc + list Param) : Prop :=
  match first, second with
  | inr p1, inr p2 =>
      length p1 = length p2
      /\ (if is_replicated then skipn 2 p1 = skipn 2 p2 else p1 = p2)
  | inl e1, inl e2 => e1 = e2
  | _, _ => False
  end.

(** [self[key]] on a column collection; [None] when the key is absent. *)
Definition column_at (k : string) (d : ColumnCollection.t) : option Column :=
  option_map snd (find (fun entry => fst entry =? k) d).

(** The columns that [_set_parent] adds for the pending arguments: the
    resolved ones, up to the first unknown name. *)
Fixpoint resolved_prefix (tbl : Table) (pending : list ColArg)
  : list Column :=
  match pending with
  | [] => []
  | col :: rest =>
      match resolved tbl col with
      | Some found => found :: resolved_prefix tbl rest
      | None => []
      end
  end.

(** Adding columns one after the other: the loop of [_set_parent]. *)
Definition add_columns (cols : list Column) (d : ColumnCollection.t)
  : ColumnCollection.t :=
  fold_left (fun acc col => ColumnCollection.add col acc) cols d.

(** No two entries of the column collection have the same key. *)
Definition keyed_once (self : ColumnCollectionMixin.t) : Prop :=
  NoDup (map fst (ColumnCollectionMixin.columns self)).

(** What a caller does: build the descriptor, attach it to the table, then
    call a method of it. *)
Definition attached_call {Self A} (built : PyExc + Self)
    (attach : Method Self unit) (m : Method Self A) : PyExc + A :=
  match built with
  | inl e => inl e
  | inr self => outcome (attach ;;; m) self
  end.

(** A sample escaper, which only puts the string between quotes; it
    instantiates the examples. *)
Definition quoting : Escaper :=
  {| escape_string := fun s => String.append "'" (String.append s "'") |}.

(** Sample data: a table [hits], and the expression
    [text("intHash32(UserID)")], which holds no column object. *)
Definition EventDate : Column :=
  {| key := "EventDate"; bound_to := Some "hits" |}.
Definition UserID : Column :=
  {| key := "UserID"; bound_to := Some "hits" |}.
Definition Sign : Column :=
  {| key := "Sign"; bound_to := Some "hits" |}.
Definition hits : Table :=
  {| table_name := "hits"; c := [EventDate; UserID; Sign] |}.
Definition bucket : ClauseElement :=
  {| sql := "intHash32(UserID)"; traversed_columns := [] |}.

(** ** Methods that only read *)

Lemma after_bind {Self A B} (m : Method Self A) (k : A -> Method Self B) self :
  after m self = self ->
  (forall a, outcome m self = inr a -> after (k a) self = self) ->
  after (bind m k) self = self.
Proof.
  unfold after, outcome, bind. intros Hm Hk.
  destruct (m self) as [[e | a] self'] eqn:E; simpl in *; subst self'.
  - reflexivity.
  - apply Hk. reflexivity.
Qed.

Lemma after_on_attr {Self Child A} (get : Self -> Child)
    (set : Child -> Self -> Self) (m : Method Child A) self :
  after m (get self) = get self ->
  set (get self) self = self ->
  after (on_attr get set m) self = self.
Proof.
  unfold after, on_attr. intros Hm Hset.
  destruct (m (get self)) as [r child]. simpl in *. subst child. exact Hset.
Qed.

Lemma get_column_read_only : read_only TableCol.get_column.
Proof.
  intros self. unfold after, TableCol.get_column, bind, attr.
  destruct (ColumnCollection.to_list _); reflexivity.
Qed.

Lemma get_expressions_or_columns_read_only :
  read_only KeysExpressionOrColumn.get_expressions_or_columns.
Proof. intros self. reflexivity. Qed.

Lemma MergeTree_get_params_read_only `{Escaper} :
  read_only MergeTree.get_params.
Proof.
  intros self. unfold MergeTree.get_params.
  apply after_bind; [reflexivity | intros name _].
  apply after_bind.
  { destruct (truthy name); [| reflexivity].
    unfold MergeTree.escaped_coordinates.
    apply after_bind; [reflexivity | intros path _].
    apply after_bind; [reflexivity | intros n _].
    destruct path, n; reflexivity. }
  intros params _.
  apply after_bind.
  { apply after_on_attr;
      [apply get_column_read_only | destruct self; reflexivity]. }
  intros date _.
  apply after_bind; [reflexivity |].
  intros samp Hsamp. unfold outcome, attr in Hsamp. simpl in Hsamp.
  injection Hsamp as Hsamp.
  apply after_bind.
  { destruct samp as [s |]; [| reflexivity].
    apply after_bind; [| reflexivity].
    unfold MergeTree.sampling_item.
    apply after_bind.
    - apply after_on_attr; [reflexivity |].
      destruct self; simpl in *; subst; reflexivity.
    - intros items _. destruct items; reflexivity. }
  intros params' _.
  apply after_bind.
  { apply after_on_attr;
      [apply get_expressions_or_columns_read_only
      | destruct self; reflexivity]. }
  intros keys _. reflexivity.
Qed.

Lemma CollapsingMergeTree_get_params_read_only `{Escaper} :
  read_only CollapsingMergeTree.get_params.
Proof.
  intros self. unfold CollapsingMergeTree.get_params.
  apply after_bind.
  { apply after_on_attr;
      [apply MergeTree_get_params_read_only | destruct self; reflexivity]. }
  intros params _.
  apply after_bind; [| reflexivity].
  apply after_on_attr;
    [apply get_column_read_only | destruct self; reflexivity].
Qed.

Lemma SummingMergeTree_get_params_read_only `{Escaper} :
  read_only SummingMergeTree.get_params.
Proof.
  intros self. unfold SummingMergeTree.get_params.
  apply after_bind.
  { apply after_on_attr;
      [apply MergeTree_get_params_read_only | destruct self; reflexivity]. }
  intros params _.
  apply after_bind; [reflexivity |].
  intros summing Hsumming. unfold outcome, attr in Hsumming.
  simpl in Hsumming. injection Hsumming as Hsumming.
  destruct summing as [s |]; [| reflexivity].
  apply after_bind; [| reflexivity].
  apply after_on_attr; [reflexivity |].
  destruct self; simpl in *; subst; reflexivity.
Qed.

Lemma after_dispatch {Self A} (wrap : Self -> EngineObject)
    (m : Method Self A) self :
  after m self = self -> snd (dispatch wrap m self) = wrap self.
Proof.
  unfold after, dispatch. destruct (m self) as [r self']. simpl.
  intros ->. reflexivity.
Qed.

(** C8: [get_params()] has no side effect and is deterministic.  A call
    leaves the descriptor, with every field of it and of the column
    descriptors it owns, as it was; hence a second call on the descriptor
    returns what the first one returned.  This holds for every object of
    every engine class, attached or not. *)
Theorem get_params_side_effect_free `{Escaper} (obj : EngineObject) :
  after get_params obj = obj
  /\ outcome get_params (after get_params obj) = outcome get_params obj
  /\ outcome
       (first <- get_params ;; second <- get_params ;; ret (first, second)) obj
     = match outcome get_params obj with
       | inr params => inr (params, params)
       | inl e => inl e
       end.
Proof.
  assert (Hfix : after get_params obj = obj).
  { unfold after, get_params.
    destruct obj as [e | e | e | e | e | e]; apply after_dispatch.
    - apply MergeTree_get_params_read_only.
    - apply CollapsingMergeTree_get_params_read_only.
    - apply SummingMergeTree_get_params_read_only.
    - reflexivity.
    - reflexivity.
    - reflexivity. }
  split; [exact Hfix |].
  split; [rewrite Hfix; reflexivity |].
  unfold after, outcome in *. unfold bind at 1.
  destruct (get_params obj) as [[e | params] obj'] eqn:E; simpl in *.
  - reflexivity.
  - subst obj'. unfold bind. rewrite E. reflexivity.
Qed.

(** ** Attaching *)

Lemma TableCol_fresh_get_column (col : ColArg) :
  outcome TableCol.get_column (TableCol.__init__ col) = inl IndexError.
Proof. reflexivity. Qed.

Lemma TableCol_attached tbl col tc :
  TableCol._set_parent tbl (TableCol.__init__ col) = (inr tt, tc) ->
  exists found,
    resolved tbl col = Some found
    /\ TableCol.get_column tc = (inr found, tc).
Proof.
  unfold TableCol._set_parent, ColumnCollectionMixin._set_parent,
    TableCol.__init__, ColumnCollectionMixin.__init__.
  destruct col as [name | found]; simpl.
  - unfold bind, attr; simpl. unfold bind; simpl.
    destruct (c_getitem tbl name) as [found |] eqn:E; simpl; [| discriminate].
    intros Heq. injection Heq as <-. exists found. split; reflexivity.
  - intros Heq. injection Heq as <-. exists found. split; reflexivity.
Qed.

(** A sampling descriptor holds one argument; once attached it renders one
    item, the expression itself or the table's column of that name. *)
Lemma sampling_attached tbl arg s :
  KeysExpressionOrColumn._set_parent tbl
    (KeysExpressionOrColumn.__init__ [arg]) = (inr tt, s) ->
  exists item,
    KeysExpressionOrColumn.get_expressions_or_columns s = (inr [item], s)
    /\ match arg with
       | ArgClause e => item = IClause e
       | ArgName name => exists found,
           c_getitem tbl name = Some found /\ item = IColumn found
       end.
Proof.
  unfold KeysExpressionOrColumn._set_parent, on_attr,
    ColumnCollectionMixin._set_parent, KeysExpressionOrColumn.__init__.
  destruct arg as [name | e]; simpl.
  - unfold bind, attr; simpl. unfold bind; simpl.
    destruct (c_getitem tbl name) as [found |] eqn:E; simpl; [| discriminate].
    intros Heq. injection Heq as <-. exists (IColumn found).
    split; [reflexivity |]. exists found. split; reflexivity.
  - intros H. exists (IClause e). split; [| reflexivity].
    destruct e as [text [| col cols]]; simpl in *;
      injection H as <-; reflexivity.
Qed.

(** What a successful [MergeTree._set_parent] did: it attached the date
    column, the key and the sampling descriptor, set [table], and left the
    other attributes alone. *)
Lemma MergeTree_set_parent_inv tbl (mt attached : MergeTree.t) :
  MergeTree._set_parent tbl mt = (inr tt, attached) ->
  TableCol._set_parent tbl (MergeTree.date_col mt)
    = (inr tt, MergeTree.date_col attached)
  /\ KeysExpressionOrColumn._set_parent tbl (MergeTree.key_cols mt)
     = (inr tt, MergeTree.key_cols attached)
  /\ match MergeTree.sampling mt with
     | Some s => exists s',
         KeysExpressionOrColumn._set_parent tbl s = (inr tt, s')
         /\ MergeTree.sampling attached = Some s'
     | None => MergeTree.sampling attached = None
     end
  /\ MergeTree.index_granularity attached = MergeTree.index_granularity mt
  /\ MergeTree.replica_name attached = MergeTree.replica_name mt
  /\ MergeTree.replica_table_path attached = MergeTree.replica_table_path mt
  /\ Engine.__class__ (MergeTree.super attached)
     = Engine.__class__ (MergeTree.super mt)
  /\ Engine.table (MergeTree.super attached) = Some tbl.
Proof.
  destruct mt as [base date keys samp gran rname rpath].
  unfold MergeTree._set_parent, bind, on_attr, attr, Engine._set_parent, assign.
  simpl.
  destruct (TableCol._set_parent tbl date) as [[e | []] date'] eqn:Edate;
    simpl; [discriminate |].
  destruct (KeysExpressionOrColumn._set_parent tbl keys) as [[e | []] keys']
    eqn:Ekeys; simpl; [discriminate |].
  destruct samp as [s |]; simpl.
  - destruct (KeysExpressionOrColumn._set_parent tbl s) as [[e | []] s']
      eqn:Esamp; simpl; [discriminate |].
    intros Heq. injection Heq as <-. simpl.
    repeat split. exists s'. split; reflexivity.
  - unfold ret. intros Heq. injection Heq as <-. simpl. repeat split.
Qed.

Lemma half_replicated_false_inv (rname rpath : option string) :
  MergeTree.half_replicated rname rpath = false ->
  if truthy rname
  then exists p n, rpath = Some p /\ rname = Some n /\ truthy rpath = true
  else truthy rpath = false.
Proof.
  unfold MergeTree.half_replicated.
  destruct rname as [n |], rpath as [p |]; simpl;
    try destruct (n =? ""); try destruct (p =? ""); simpl;
    try discriminate; try reflexivity; intros _; eauto.
Qed.

(** The parameter list of a MergeTree object (of class [cls]) that was
    built by [__init__] and then attached with success. *)
Lemma MergeTree_attached_get_params `{Escaper} cls date_col key_expressions
    sampling index_granularity rname rpath tbl mt attached :
  MergeTree.__init__ cls date_col key_expressions sampling index_granularity
    rname rpath = inr mt ->
  MergeTree._set_parent tbl mt = (inr tt, attached) ->
  exists coords date samp rendered,
    (if truthy rname
     then exists p n, rpath = Some p /\ rname = Some n
            /\ coords = [PString (escape_string p); PString (escape_string n)]
     else coords = [])
    /\ resolved tbl date_col = Some date
    /\ outcome TableCol.get_column (MergeTree.date_col attached) = inr date
    /\ match sampling with
       | Some arg => exists s item,
           MergeTree.sampling attached = Some s
           /\ outcome KeysExpressionOrColumn.get_expressions_or_columns s
              = inr [item]
           /\ samp = [PItem item]
       | None => MergeTree.sampling attached = None /\ samp = []
       end
    /\ outcome KeysExpressionOrColumn.get_expressions_or_columns
         (MergeTree.key_cols attached) = inr rendered
    /\ outcome MergeTree.get_params attached
       = inr (coords ++ [PItem (IColumn date)] ++ samp
                ++ [PTuple rendered; PInt (default 8192%Z index_granularity)])
    /\ MergeTree.replica_name attached = rname
    /\ MergeTree.replica_table_path attached = rpath
    /\ Engine.__class__ (MergeTree.super attached) = cls.
Proof.
  unfold MergeTree.__init__.
  destruct (MergeTree.half_replicated rname rpath) eqn:Hhalf; [discriminate |].
  intros Hinit Hattach. injection Hinit as <-.
  apply MergeTree_set_parent_inv in Hattach. simpl in Hattach.
  destruct Hattach
    as (Hdate & Hkeys & Hsamp & Hgran & Hrname & Hrpath & Hcls & _).
  apply TableCol_attached in Hdate. destruct Hdate as (date & Hres & Hget).
  apply half_replicated_false_inv in Hhalf.
  assert (Hcoords : exists coords,
    (if truthy rname
     then exists p n, rpath = Some p /\ rname = Some n
            /\ coords = [PString (escape_string p); PString (escape_string n)]
     else coords = [])
    /\ (if truthy rname then MergeTree.escaped_coordinates else ret [])
         attached = (inr coords, attached)).
  { destruct (truthy rname).
    - destruct Hhalf as (p & n & -> & -> & _).
      exists [PString (escape_string p); PString (escape_string n)].
      split; [eauto |].
      unfold MergeTree.escaped_coordinates, bind, attr.
      rewrite Hrname, Hrpath. reflexivity.
    - exists []. split; reflexivity. }
  destruct Hcoords as (coords & Hcoords & Hrun).
  assert (Hsampling : exists samp,
    match sampling with
    | Some arg => exists s item,
        MergeTree.sampling attached = Some s
        /\ outcome KeysExpressionOrColumn.get_expressions_or_columns s
           = inr [item]
        /\ samp = [PItem item]
    | None => MergeTree.sampling attached = None /\ samp = []
    end).
  { destruct sampling as [arg |].
    - destruct Hsamp as (s & Hs & Hfield).
      apply sampling_attached in Hs. destruct Hs as (item & Hitem & _).
      exists [PItem item], s, item. unfold outcome. rewrite Hitem. auto.
    - exists []. auto. }
  destruct Hsampling as (samp & Hsampling).
  exists coords, date, samp,
    (map KeysExpressionOrColumn.pick
       (zip_longest
          (KeysExpressionOrColumn.expressions (MergeTree.key_cols attached))
          (ColumnCollection.to_list
             (ColumnCollectionMixin.columns
                (KeysExpressionOrColumn.super (MergeTree.key_cols attached)))))).
  repeat split; try assumption.
  - unfold outcome. rewrite Hget. reflexivity.
  - unfold outcome, MergeTree.get_params, bind, attr, on_attr.
    rewrite Hrname, Hrun, Hget. simpl.
    destruct sampling as [arg |].
    + destruct Hsampling as (s & item & -> & Hitem & ->).
      unfold MergeTree.sampling_item, bind, on_attr.
      unfold outcome in Hitem.
      destruct (KeysExpressionOrColumn.get_expressions_or_columns s)
        as [r s'] eqn:E.
      simpl in Hitem. subst r. simpl. rewrite Hgran.
      rewrite <- !app_assoc. reflexivity.
    + destruct Hsampling as (-> & ->). simpl. rewrite Hgran.
      rewrite <- !app_assoc. reflexivity.
Qed.

(** ** The parameter list of MergeTree *)

(** C2: for a MergeTree built by [__init__] and attached with success,
    [get_params()] returns, in this order: when the descriptor is
    replicated, the escaped [replica_table_path] and the escaped
    [replica_name]; the resolved date column; when a sampling expression
    was given, its single rendered item; the rendered key as one tuple;
    the index granularity.  Its length is
    2 (if replicated) + 1 + 1 (if sampling) + 1 + 1. *)
Theorem MergeTree_get_params_order `{Escaper} date_col key_expressions
    sampling index_granularity rname rpath tbl mt attached :
  MergeTree.__init__ ClsMergeTree date_col key_expressions sampling
    index_granularity rname rpath = inr mt ->
  MergeTree._set_parent tbl mt = (inr tt, attached) ->
  exists coords date samp rendered params,
    (if replicated attached
     then exists p n,
            MergeTree.replica_table_path attached = Some p
            /\ MergeTree.replica_name attached = Some n
            /\ coords = [PString (escape_string p); PString (escape_string n)]
     else coords = [])
    /\ resolved tbl date_col = Some date
    /\ outcome TableCol.get_column (MergeTree.date_col attached) = inr date
    /\ match sampling with
       | Some _ => exists s item,
           MergeTree.sampling attached = Some s
           /\ outcome KeysExpressionOrColumn.get_expressions_or_columns s
              = inr [item]
           /\ samp = [PItem item]
       | None => samp = []
       end
    /\ outcome KeysExpressionOrColumn.get_expressions_or_columns
         (MergeTree.key_cols attached) = inr rendered
    /\ outcome MergeTree.get_params attached = inr params
    /\ params = coords ++ [PItem (IColumn date)] ++ samp
                  ++ [PTuple rendered;
                      PInt (MergeTree.index_granularity attached)]
    /\ length params
       = 2 * (if replicated attached then 1 else 0) + 1
         + (if present sampling then 1 else 0) + 1 + 1.
Proof.
  intros Hinit Hattach.
  destruct (MergeTree_attached_get_params _ _ _ _ _ _ _ _ _ _ Hinit Hattach)
    as (coords & date & samp & rendered & Hcoords & Hres & Hdate & Hsamp
        & Hkeys & Hparams & Hrname & Hrpath & _).
  assert (Hgran : MergeTree.index_granularity attached
                  = default 8192%Z index_granularity).
  { apply MergeTree_set_parent_inv in Hattach.
    destruct Hattach as (_ & _ & _ & -> & _).
    unfold MergeTree.__init__ in Hinit.
    destruct (MergeTree.half_replicated rname rpath); [discriminate |].
    injection Hinit as <-. reflexivity. }
  exists coords, date, samp, rendered.
  eexists.
  unfold replicated. rewrite Hrname, Hrpath, Hgran.
  split; [exact Hcoords |].
  split; [exact Hres |].
  split; [exact Hdate |].
  split; [destruct sampling; [exact Hsamp | tauto] |].
  split; [exact Hkeys |].
  split; [exact Hparams |].
  split; [reflexivity |].
  - rewrite !length_app.
    assert (length coords = 2 * (if truthy rname then 1 else 0)) as ->.
    { destruct (truthy rname).
      - destruct Hcoords as (p & n & _ & _ & ->). reflexivity.
      - subst coords. reflexivity. }
    assert (length samp = if present sampling then 1 else 0) as ->.
    { destruct sampling; simpl.
      - destruct Hsamp as (s & item & _ & _ & ->). reflexivity.
      - destruct Hsamp as (_ & ->). reflexivity. }
    simpl. lia.
Qed.

Lemma MergeTree_get_params_order_witness :
  exists mt attached params,
    MergeTree.__init__ ClsMergeTree (ColName "EventDate")
      [ArgName "UserID"; ArgName "EventDate"] (Some (ArgClause bucket)) None
      (Some "r1") (Some "/p") = inr mt
    /\ MergeTree._set_parent hits mt = (inr tt, attached)
    /\ outcome (MergeTree.get_params (H := quoting)) attached = inr params
    /\ length params = 6.
Proof.
  destruct (@MergeTree_get_params_order quoting (ColName "EventDate")
              [ArgName "UserID"; ArgName "EventDate"] (Some (ArgClause bucket))
              None (Some "r1") (Some "/p") hits _ _ eq_refl eq_refl)
    as (coords & date & samp & rendered & params & _ & _ & _ & _ & _ & Hparams
        & _ & Hlen).
  refine (ex_intro _ _ (ex_intro _ _ (ex_intro _ params
            (conj _ (conj _ (conj Hparams Hlen)))))); reflexivity.
Defined.

Example MergeTree_get_params_sample :
  attached_call
    (MergeTree.__init__ ClsMergeTree (ColName "EventDate")
       [ArgName "UserID"; ArgName "EventDate"] (Some (ArgClause bucket)) None
       (Some "r1") (Some "/p"))
    (MergeTree._set_parent hits) (MergeTree.get_params (H := quoting))
  = inr [PString "'/p'"; PString "'r1'"; PItem (IColumn EventDate);
         PItem (IClause bucket);
         PTuple [IColumn UserID; IColumn EventDate]; PInt 8192].
Proof. reflexivity. Qed.

(** ** Validation of the replication coordinates *)

(** C3, as stated, fails: presence is not what [__init__] tests.  With
    [replica_name=''] and no [replica_table_path] exactly one of the two is
    supplied and the construction succeeds; with [replica_name=''] and
    [replica_table_path='/p'] both are supplied and it fails. *)
Lemma replica_presence_counterexample :
  (xorb (present (Some "")) (present (@None string)) = true
   /\ exists mt,
        MergeTree.__init__ ClsMergeTree (ColName "EventDate")
          [ArgName "UserID"] None None (Some "") None = inr mt)
  /\ (xorb (present (Some "")) (present (Some "/p")) = false
      /\ exists msg,
           MergeTree.__init__ ClsMergeTree (ColName "EventDate")
             [ArgName "UserID"] None None (Some "") (Some "/p")
           = inl (Exception msg)).
Proof.
  split; (split; [reflexivity |]); eexists; reflexivity.
Qed.

(** C3, amended: the replication check of [__init__] is on truth values.
    With exactly one of [replica_name] and [replica_table_path] true (a
    non-empty string) and the other not ([None] or ['']) the constructor
    never returns a descriptor; every descriptor it returns has both true
    or both false, kept as given.  When no column argument is or adds a
    table-bound column, so that nothing else can raise in the constructor,
    the failure is the [Exception] of the check, raised at construction,
    and with both true or both false the construction succeeds. *)
Theorem replica_pair_validated_at_construction cls date_col key_expressions
    sampling index_granularity rname rpath :
  (xorb (truthy rname) (truthy rpath) = true ->
   exists err,
     MergeTree.__init__ cls date_col key_expressions sampling
       index_granularity rname rpath = inl err)
  /\ (forall mt,
        MergeTree.__init__ cls date_col key_expressions sampling
          index_granularity rname rpath = inr mt ->
        xorb (truthy rname) (truthy rpath) = false
        /\ MergeTree.replica_name mt = rname
        /\ MergeTree.replica_table_path mt = rpath)
  /\ (no_bound_column date_col key_expressions sampling = true ->
      (xorb (truthy rname) (truthy rpath) = true ->
       MergeTree.__init__ cls date_col key_expressions sampling
         index_granularity rname rpath
       = inl (Exception "Need both or no one [replica_path, replica_name]"))
      /\ (xorb (truthy rname) (truthy rpath) = false ->
          exists mt,
            MergeTree.__init__ cls date_col key_expressions sampling
              index_granularity rname rpath = inr mt
            /\ MergeTree.replica_name mt = rname
            /\ MergeTree.replica_table_path mt = rpath)).
Proof.
  unfold MergeTree.__init__, MergeTree.half_replicated.
  split; [| split].
  - destruct (truthy rname), (truthy rpath); simpl; intros Hx;
      try discriminate; eexists; reflexivity.
  - intros mt.
    destruct (truthy rname), (truthy rpath); simpl; intros Hinit;
      try discriminate; injection Hinit as <-; repeat split.
  - intros _.
    destruct (truthy rname), (truthy rpath); simpl; split; intros Hx;
      try discriminate; try reflexivity; eexists; repeat split.
Qed.

Lemma replica_pair_validated_at_construction_witness :
  MergeTree.__init__ ClsMergeTree (ColName "EventDate") [ArgName "UserID"]
    None None (Some "r1") None
  = inl (Exception "Need both or no one [replica_path, replica_name]")
  /\ exists mt,
       MergeTree.__init__ ClsMergeTree (ColName "EventDate") [ArgName "UserID"]
         None None (Some "r1") (Some "/p") = inr mt
       /\ MergeTree.replica_name mt = Some "r1"
       /\ MergeTree.replica_table_path mt = Some "/p".
Proof.
  split.
  - apply (proj1 (proj2 (proj2 (replica_pair_validated_at_construction
                                  ClsMergeTree (ColName "EventDate")
                                  [ArgName "UserID"] None None (Some "r1")
                                  None)) eq_refl)).
    reflexivity.
  - apply (proj2 (proj2 (proj2 (replica_pair_validated_at_construction
                                  ClsMergeTree (ColName "EventDate")
                                  [ArgName "UserID"] None None (Some "r1")
                                  (Some "/p"))) eq_refl)).
    reflexivity.
Defined.

(** When [replica_name] is false, [get_params] does not look at the
    replication attributes any further. *)
Lemma get_params_unreplicated `{Escaper} base date keys samp gran
    (rname rpath rname' rpath' : option string) :
  truthy rname = false ->
  truthy rname' = false ->
  outcome MergeTree.get_params
    {| MergeTree.super := base; MergeTree.date_col := date;
       MergeTree.key_cols := keys; MergeTree.sampling := samp;
       MergeTree.index_granularity := gran;
       MergeTree.replica_name := rname;
       MergeTree.replica_table_path := rpath |}
  = outcome MergeTree.get_params
      {| MergeTree.super := base; MergeTree.date_col := date;
         MergeTree.key_cols := keys; MergeTree.sampling := samp;
         MergeTree.index_granularity := gran;
         MergeTree.replica_name := rname';
         MergeTree.replica_table_path := rpath' |}.
Proof.
  intros Hname Hname'.
  unfold outcome, MergeTree.get_params, bind, attr, on_attr. simpl.
  rewrite Hname, Hname'. simpl.
  destruct (TableCol.get_column date) as [[e | first] date']; simpl;
    [reflexivity |].
  destruct samp as [s |]; simpl; [| reflexivity].
  unfold MergeTree.sampling_item, bind, on_attr. simpl.
  destruct (map KeysExpressionOrColumn.pick _); reflexivity.
Qed.

(** Case analysis on the three child attachments of
    [MergeTree._set_parent], for goals that compare two runs. *)
Ltac run_attach tbl date_col key_expressions sampling :=
  unfold outcome at 1 2, bind, MergeTree._set_parent, bind, on_attr, attr,
    Engine._set_parent, assign, MergeTree.set_super, MergeTree.set_date_col,
    MergeTree.set_key_cols, MergeTree.set_sampling; simpl;
  destruct (TableCol._set_parent tbl (TableCol.__init__ date_col))
    as [[? | []] ?]; simpl; [reflexivity |];
  destruct (KeysExpressionOrColumn._set_parent tbl
              (KeysExpressionOrColumn.__init__ key_expressions))
    as [[? | []] ?]; simpl; [reflexivity |];
  destruct sampling as [arg |]; simpl;
    [| first [reflexivity | apply get_params_unreplicated; reflexivity]];
  destruct (KeysExpressionOrColumn._set_parent tbl
              (KeysExpressionOrColumn.__init__ [arg]))
    as [[? | []] ?];
    first [reflexivity | apply get_params_unreplicated; reflexivity].

(** C9: replication is judged by the truth value of the strings.  A
    MergeTree built with [replica_name=''] and [replica_table_path='']
    behaves as the one built without the two arguments: [name()] is the
    bare class name, before and after attach, and after attach
    [get_params()] returns the same list, which starts with the date
    column.  The construction with the two empty strings succeeds
    whenever no column argument is or adds a table-bound column, which
    could raise on its own.  With one of the two [''] and the other
    non-empty the constructor never returns a descriptor, and under the
    same condition on the arguments it raises the [Exception] of the
    replication check. *)
Theorem empty_replica_strings_mean_unreplicated `{Escaper} date_col
    key_expressions sampling index_granularity :
  (forall mt,
     MergeTree.__init__ ClsMergeTree date_col key_expressions sampling
       index_granularity (Some "") (Some "") = inr mt ->
     exists plain,
       MergeTree.__init__ ClsMergeTree date_col key_expressions sampling
         index_granularity None None = inr plain
       /\ replicated mt = false
       /\ outcome MergeTree.name mt = inr "MergeTree"
       /\ forall tbl,
            outcome (MergeTree._set_parent tbl ;;; MergeTree.name) mt
            = outcome (MergeTree._set_parent tbl ;;; MergeTree.name) plain
            /\ outcome (MergeTree._set_parent tbl ;;; MergeTree.get_params) mt
               = outcome (MergeTree._set_parent tbl ;;; MergeTree.get_params)
                   plain
            /\ forall attached,
                 MergeTree._set_parent tbl mt = (inr tt, attached) ->
                 outcome MergeTree.name attached = inr "MergeTree"
                 /\ exists date rest,
                      outcome MergeTree.get_params attached
                      = inr (PItem (IColumn date) :: rest))
  /\ (no_bound_column date_col key_expressions sampling = true ->
      exists mt,
        MergeTree.__init__ ClsMergeTree date_col key_expressions sampling
          index_granularity (Some "") (Some "") = inr mt)
  /\ (forall s, s <> "" ->
      (exists err,
         MergeTree.__init__ ClsMergeTree date_col key_expressions sampling
           index_granularity (Some s) (Some "") = inl err)
      /\ (exists err,
            MergeTree.__init__ ClsMergeTree date_col key_expressions sampling
              index_granularity (Some "") (Some s) = inl err))
  /\ (no_bound_column date_col key_expressions sampling = true ->
      forall s, s <> "" ->
      (exists msg,
         MergeTree.__init__ ClsMergeTree date_col key_expressions sampling
           index_granularity (Some s) (Some "") = inl (Exception msg))
      /\ (exists msg,
            MergeTree.__init__ ClsMergeTree date_col key_expressions sampling
              index_granularity (Some "") (Some s) = inl (Exception msg))).
Proof.
  assert (Hhalf : forall s, s <> "" ->
    (exists msg,
       MergeTree.__init__ ClsMergeTree date_col key_expressions sampling
         index_granularity (Some s) (Some "") = inl (Exception msg))
    /\ (exists msg,
          MergeTree.__init__ ClsMergeTree date_col key_expressions sampling
            index_granularity (Some "") (Some s) = inl (Exception msg))).
  { intros s Hs. unfold MergeTree.__init__, MergeTree.half_replicated. simpl.
    destruct (s =? "") eqn:E.
    - apply String.eqb_eq in E. contradiction.
    - simpl. split; eexists; reflexivity. }
  split; [| split; [| split]].
  - intros mt Hinit. injection Hinit as <-. eexists.
    split; [reflexivity |].
    split; [reflexivity |]. split; [reflexivity |].
    intros tbl. split; [| split].
    + run_attach tbl date_col key_expressions sampling.
    + run_attach tbl date_col key_expressions sampling.
    + intros attached Hattach.
      destruct (MergeTree_attached_get_params ClsMergeTree date_col
                  key_expressions sampling index_granularity (Some "")
                  (Some "") tbl _ _ eq_refl Hattach)
        as (coords & date & samp & rendered & Hcoords & _ & _ & _ & _
            & Hparams & Hrname & _ & Hcls).
      simpl in Hcoords. subst coords. split.
      * unfold outcome, MergeTree.name, bind, attr. simpl.
        rewrite Hrname, Hcls. reflexivity.
      * exists date. eexists. rewrite Hparams. reflexivity.
  - intros _. eexists. reflexivity.
  - intros s Hs. destruct (Hhalf s Hs) as ((msg1 & H1) & (msg2 & H2)).
    split; eexists; eassumption.
  - intros _. exact Hhalf.
Qed.

Lemma empty_replica_strings_mean_unreplicated_witness :
  (exists mt attached date rest,
     MergeTree.__init__ ClsMergeTree (ColName "EventDate") [ArgName "UserID"]
       None None (Some "") (Some "") = inr mt
     /\ MergeTree._set_parent hits mt = (inr tt, attached)
     /\ outcome MergeTree.name attached = inr "MergeTree"
     /\ outcome (MergeTree.get_params (H := quoting)) attached
        = inr (PItem (IColumn date) :: rest))
  /\ (exists msg,
        MergeTree.__init__ ClsMergeTree (ColName "EventDate") [ArgName "UserID"]
          None None (Some "r1") (Some "") = inl (Exception msg))
  /\ (exists msg,
        MergeTree.__init__ ClsMergeTree (ColName "EventDate") [ArgName "UserID"]
          None None (Some "") (Some "r1") = inl (Exception msg)).
Proof.
  destruct (@empty_replica_strings_mean_unreplicated quoting
              (ColName "EventDate") [ArgName "UserID"] None None)
    as (Hsame & Hbuilt & _ & Hhalf).
  split.
  - destruct (Hbuilt eq_refl) as (mt & Hinit).
    destruct (Hsame mt Hinit) as (plain & _ & _ & _ & Hattached).
    injection Hinit as Hinit.
    destruct (Hattached hits) as (_ & _ & Hrun).
    destruct (Hrun (after (MergeTree._set_parent hits) mt))
      as (Hname & date & rest & Hparams).
    { rewrite <- Hinit. reflexivity. }
    exists mt, (after (MergeTree._set_parent hits) mt), date, rest.
    repeat split; try assumption; rewrite <- Hinit; reflexivity.
  - apply (Hhalf eq_refl "r1"). discriminate.
Defined.

(** ** The engine name *)

Lemma run_read_only {Self A} (m : Method Self A) self a :
  read_only m -> outcome m self = inr a -> m self = (inr a, self).
Proof.
  unfold read_only, after, outcome. intros Hro Hout. specialize (Hro self).
  destruct (m self) as [r self']. simpl in *. subst. reflexivity.
Qed.

Lemma MergeTree_name_eq (e : MergeTree.t) :
  MergeTree.name e
  = (inr (String.append (if replicated e then "Replicated" else "")
            (base_name e)), e).
Proof. reflexivity. Qed.

(** C5: for every descriptor of the MergeTree family, [name()] is
    ["Replicated"] followed by the class name when the descriptor is
    replicated, and the class name alone otherwise.  A MergeTree built with
    [replica_name="r1"] and [replica_table_path="/p"] is named
    ["ReplicatedMergeTree"], before and after attach, and once attached the
    first two items of [get_params()] are [escape("/p")] and
    [escape("r1")]. *)
Theorem MergeTree_family_name `{Escaper} :
  (forall obj base,
     family_base obj = Some base ->
     outcome name obj
     = inr (if replicated base
            then String.append "Replicated" (base_name base)
            else base_name base))
  /\ (forall date_col key_expressions sampling index_granularity mt,
        MergeTree.__init__ ClsMergeTree date_col key_expressions sampling
          index_granularity (Some "r1") (Some "/p") = inr mt ->
        outcome MergeTree.name mt = inr "ReplicatedMergeTree"
        /\ forall tbl attached,
             MergeTree._set_parent tbl mt = (inr tt, attached) ->
             outcome MergeTree.name attached = inr "ReplicatedMergeTree"
             /\ exists params,
                  outcome MergeTree.get_params attached = inr params
                  /\ firstn 2 params
                     = [PString (escape_string "/p");
                        PString (escape_string "r1")]).
Proof.
  split.
  - intros obj base Hbase.
    assert (Hname : outcome MergeTree.name base
                    = inr (if replicated base
                           then String.append "Replicated" (base_name base)
                           else base_name base)).
    { unfold outcome. rewrite MergeTree_name_eq. simpl.
      destruct (replicated base); reflexivity. }
    destruct obj as [e | e | e | e | e | e]; simpl in Hbase;
      try discriminate; injection Hbase as <-.
    + unfold outcome, name, dispatch in *.
      destruct (MergeTree.name e). exact Hname.
    + unfold outcome, name, dispatch, CollapsingMergeTree.name, on_attr in *.
      destruct (MergeTree.name (CollapsingMergeTree.super e)). exact Hname.
    + unfold outcome, name, dispatch, SummingMergeTree.name, on_attr in *.
      destruct (MergeTree.name (SummingMergeTree.super e)). exact Hname.
  - intros date_col key_expressions sampling index_granularity mt Hinit.
    split.
    + injection Hinit as <-. reflexivity.
    + intros tbl attached Hattach.
      destruct (MergeTree_attached_get_params _ _ _ _ _ _ _ _ _ _ Hinit Hattach)
        as (coords & date & samp & rendered & Hcoords & _ & _ & _ & _
            & Hparams & Hrname & _ & Hcls).
      simpl in Hcoords. destruct Hcoords as (p & n & Hp & Hn & ->).
      injection Hp as <-. injection Hn as <-.
      split.
      * unfold outcome. rewrite MergeTree_name_eq. simpl.
        unfold replicated, base_name. rewrite Hrname, Hcls. reflexivity.
      * eexists. split; [exact Hparams | reflexivity].
Qed.

Lemma MergeTree_family_name_witness :
  (exists e,
     CollapsingMergeTree.__init__ (ColName "EventDate") [ArgName "UserID"]
       (ColName "Sign") None None = inr e
     /\ outcome name (ACollapsingMergeTree e) = inr "CollapsingMergeTree")
  /\ (exists mt attached params,
        MergeTree.__init__ ClsMergeTree (ColName "EventDate")
          [ArgName "UserID"] None None (Some "r1") (Some "/p") = inr mt
        /\ MergeTree._set_parent hits mt = (inr tt, attached)
        /\ outcome MergeTree.name attached = inr "ReplicatedMergeTree"
        /\ outcome (MergeTree.get_params (H := quoting)) attached = inr params
        /\ firstn 2 params = [PString "'/p'"; PString "'r1'"]).
Proof.
  split.
  - eexists. split; [reflexivity |].
    match goal with
    | |- outcome name ?obj = _ =>
        exact (proj1 (@MergeTree_family_name quoting) obj _ eq_refl)
    end.
  - destruct (proj2 (@MergeTree_family_name quoting) (ColName "EventDate")
                [ArgName "UserID"] None None _ eq_refl) as (_ & Hattached).
    destruct (Hattached hits _ eq_refl) as (Hname & params & Hparams & Hfirst).
    refine (ex_intro _ _ (ex_intro _ _ (ex_intro _ params
              (conj _ (conj _ (conj Hname (conj Hparams Hfirst)))))));
      reflexivity.
Defined.

(** ** The index granularity *)

(** C7: a MergeTree built without [index_granularity] has granularity
    8192; built with a value, whichever integer it is, it has exactly that
    value, and the construction succeeds whenever it succeeds without the
    argument.  Once attached, the value is the last item of the MergeTree
    parameter list. *)
Theorem index_granularity_as_given `{Escaper} cls date_col key_expressions
    sampling rname rpath plain :
  MergeTree.__init__ cls date_col key_expressions sampling None rname rpath
  = inr plain ->
  MergeTree.index_granularity plain = 8192%Z
  /\ (forall tbl attached,
        MergeTree._set_parent tbl plain = (inr tt, attached) ->
        exists front,
          outcome MergeTree.get_params attached = inr (front ++ [PInt 8192]))
  /\ forall v : Z,
       exists mt,
         MergeTree.__init__ cls date_col key_expressions sampling (Some v)
           rname rpath = inr mt
         /\ MergeTree.index_granularity mt = v
         /\ forall tbl attached,
              MergeTree._set_parent tbl mt = (inr tt, attached) ->
              exists front,
                outcome MergeTree.get_params attached
                = inr (front ++ [PInt v]).
Proof.
  intros Hplain.
  assert (Hlast : forall g mt tbl attached,
    MergeTree.__init__ cls date_col key_expressions sampling g rname rpath
    = inr mt ->
    MergeTree._set_parent tbl mt = (inr tt, attached) ->
    exists front,
      outcome MergeTree.get_params attached
      = inr (front ++ [PInt (default 8192%Z g)])).
  { intros g mt tbl attached Hinit Hattach.
    destruct (MergeTree_attached_get_params _ _ _ _ _ _ _ _ _ _ Hinit Hattach)
      as (coords & date & samp & rendered & _ & _ & _ & _ & _ & Hparams & _).
    exists (coords ++ [PItem (IColumn date)] ++ samp ++ [PTuple rendered]).
    rewrite Hparams. f_equal. rewrite <- !app_assoc. reflexivity. }
  split; [| split].
  - unfold MergeTree.__init__ in Hplain.
    destruct (MergeTree.half_replicated rname rpath); [discriminate |].
    injection Hplain as <-. reflexivity.
  - intros tbl attached. apply (Hlast None). exact Hplain.
  - intros v.
    assert (Hinit : exists mt,
      MergeTree.__init__ cls date_col key_expressions sampling (Some v)
        rname rpath = inr mt
      /\ MergeTree.index_granularity mt = v).
    { unfold MergeTree.__init__ in *.
      destruct (MergeTree.half_replicated rname rpath); [discriminate |].
      eexists. split; reflexivity. }
    destruct Hinit as (mt & Hinit & Hgran).
    exists mt. split; [exact Hinit |]. split; [exact Hgran |].
    intros tbl attached. apply (Hlast (Some v)). exact Hinit.
Qed.

Lemma index_granularity_as_given_witness :
  exists zero negative attached front,
    MergeTree.__init__ ClsMergeTree (ColName "EventDate") [ArgName "UserID"]
      None (Some 0%Z) None None = inr zero
    /\ MergeTree.index_granularity zero = 0%Z
    /\ MergeTree.__init__ ClsMergeTree (ColName "EventDate") [ArgName "UserID"]
         None (Some (-1)%Z) None None = inr negative
    /\ MergeTree.index_granularity negative = (-1)%Z
    /\ MergeTree._set_parent hits negative = (inr tt, attached)
    /\ outcome (MergeTree.get_params (H := quoting)) attached
       = inr (front ++ [PInt (-1)]).
Proof.
  pose proof (@index_granularity_as_given quoting ClsMergeTree
                (ColName "EventDate") [ArgName "UserID"] None None None _
                eq_refl) as (_ & _ & Hgiven).
  destruct (Hgiven 0%Z) as (zero & Hzero & Hgzero & _).
  destruct (Hgiven (-1)%Z) as (negative & Hneg & Hgneg & Hlast).
  injection Hneg as Hneg.
  destruct (Hlast hits (after (MergeTree._set_parent hits) negative))
    as (front & Hfront).
  { rewrite <- Hneg. reflexivity. }
  exists zero, negative, (after (MergeTree._set_parent hits) negative), front.
  repeat split; try assumption.
  - rewrite <- Hneg. reflexivity.
  - rewrite <- Hneg. reflexivity.
Defined.

(** ** The subclasses *)

Lemma CollapsingMergeTree_set_parent_inv tbl
    (e attached : CollapsingMergeTree.t) :
  CollapsingMergeTree._set_parent tbl e = (inr tt, attached) ->
  MergeTree._set_parent tbl (CollapsingMergeTree.super e)
    = (inr tt, CollapsingMergeTree.super attached)
  /\ TableCol._set_parent tbl (CollapsingMergeTree.sign_col e)
     = (inr tt, CollapsingMergeTree.sign_col attached).
Proof.
  destruct e as [base sign].
  unfold CollapsingMergeTree._set_parent, bind, on_attr. simpl.
  destruct (MergeTree._set_parent tbl base) as [[e | []] base']; simpl;
    [discriminate |].
  destruct (TableCol._set_parent tbl sign) as [[e | []] sign']; simpl;
    [discriminate |].
  intros Heq. injection Heq as <-. split; reflexivity.
Qed.

Lemma SummingMergeTree_set_parent_inv tbl (e attached : SummingMergeTree.t) :
  SummingMergeTree._set_parent tbl e = (inr tt, attached) ->
  MergeTree._set_parent tbl (SummingMergeTree.super e)
    = (inr tt, SummingMergeTree.super attached)
  /\ match SummingMergeTree.summing_cols e with
     | Some s => exists s',
         KeysExpressionOrColumn._set_parent tbl s = (inr tt, s')
         /\ SummingMergeTree.summing_cols attached = Some s'
     | None => SummingMergeTree.summing_cols attached = None
     end.
Proof.
  destruct e as [base summing].
  unfold SummingMergeTree._set_parent, bind, on_attr, attr. simpl.
  destruct (MergeTree._set_parent tbl base) as [[e | []] base']; simpl;
    [discriminate |].
  destruct summing as [s |]; simpl.
  - destruct (KeysExpressionOrColumn._set_parent tbl s) as [[e | []] s'];
      simpl; [discriminate |].
    intros Heq. injection Heq as <-. split; [reflexivity |].
    exists s'. split; reflexivity.
  - unfold ret. intros Heq. injection Heq as <-. split; reflexivity.
Qed.

(** An unreplicated MergeTree part, once attached: its parameter list
    starts with the date column. *)
Lemma unreplicated_attached_get_params `{Escaper} cls date_col key_expressions
    sampling index_granularity tbl mt attached :
  MergeTree.__init__ cls date_col key_expressions sampling index_granularity
    None None = inr mt ->
  MergeTree._set_parent tbl mt = (inr tt, attached) ->
  exists date rest,
    MergeTree.get_params attached
    = (inr (PItem (IColumn date) :: rest), attached)
    /\ MergeTree.replica_name attached = None
    /\ MergeTree.replica_table_path attached = None
    /\ Engine.__class__ (MergeTree.super attached) = cls.
Proof.
  intros Hinit Hattach.
  destruct (MergeTree_attached_get_params _ _ _ _ _ _ _ _ _ _ Hinit Hattach)
    as (coords & date & samp & rendered & Hcoords & _ & _ & _ & _ & Hparams
        & Hrname & Hrpath & Hcls).
  simpl in Hcoords. subst coords.
  apply run_read_only in Hparams; [| apply MergeTree_get_params_read_only].
  exists date. eexists. split; [exact Hparams |]. auto.
Qed.

Lemma CollapsingMergeTree_attached_get_params `{Escaper} date_col
    key_expressions sign_col sampling index_granularity tbl e attached :
  CollapsingMergeTree.__init__ date_col key_expressions sign_col sampling
    index_granularity = inr e ->
  CollapsingMergeTree._set_parent tbl e = (inr tt, attached) ->
  exists date rest sign,
    outcome MergeTree.get_params (CollapsingMergeTree.super attached)
    = inr (PItem (IColumn date) :: rest)
    /\ resolved tbl sign_col = Some sign
    /\ outcome TableCol.get_column (CollapsingMergeTree.sign_col attached)
       = inr sign
    /\ outcome CollapsingMergeTree.get_params attached
       = inr ((PItem (IColumn date) :: rest) ++ [PItem (IColumn sign)])
    /\ MergeTree.replica_name (CollapsingMergeTree.super attached) = None
    /\ MergeTree.replica_table_path (CollapsingMergeTree.super attached) = None
    /\ base_name (CollapsingMergeTree.super attached) = "CollapsingMergeTree".
Proof.
  intros Hinit Hattach.
  unfold CollapsingMergeTree.__init__ in Hinit.
  destruct (MergeTree.__init__ ClsCollapsingMergeTree date_col
              key_expressions sampling index_granularity None None)
    as [err | mt] eqn:Hbase; [discriminate |].
  injection Hinit as <-.
  apply CollapsingMergeTree_set_parent_inv in Hattach. simpl in Hattach.
  destruct Hattach as (Hsuper & Hsign).
  destruct (unreplicated_attached_get_params _ _ _ _ _ _ _ _ Hbase Hsuper)
    as (date & rest & Hparams & Hrname & Hrpath & Hcls).
  apply TableCol_attached in Hsign. destruct Hsign as (sign & Hres & Hget).
  exists date, rest, sign.
  unfold base_name. rewrite Hcls.
  destruct attached as [abase asign]. simpl in *.
  unfold outcome, CollapsingMergeTree.get_params, bind, on_attr. simpl.
  rewrite Hparams, Hget. simpl. rewrite Hget. repeat split; assumption.
Qed.

Lemma SummingMergeTree_attached_get_params `{Escaper} date_col
    key_expressions summing_cols sampling index_granularity tbl e attached :
  SummingMergeTree.__init__ date_col key_expressions summing_cols sampling
    index_granularity = inr e ->
  SummingMergeTree._set_parent tbl e = (inr tt, attached) ->
  exists date rest,
    outcome MergeTree.get_params (SummingMergeTree.super attached)
    = inr (PItem (IColumn date) :: rest)
    /\ match summing_cols with
       | Some _ => exists s items,
           SummingMergeTree.summing_cols attached = Some s
           /\ outcome KeysExpressionOrColumn.get_expressions_or_columns s
              = inr items
           /\ outcome SummingMergeTree.get_params attached
              = inr ((PItem (IColumn date) :: rest) ++ [PTuple items])
       | None =>
           outcome SummingMergeTree.get_params attached
           = inr (PItem (IColumn date) :: rest)
       end
    /\ MergeTree.replica_name (SummingMergeTree.super attached) = None
    /\ MergeTree.replica_table_path (SummingMergeTree.super attached) = None
    /\ base_name (SummingMergeTree.super attached) = "SummingMergeTree".
Proof.
  intros Hinit Hattach.
  unfold SummingMergeTree.__init__ in Hinit.
  destruct (MergeTree.__init__ ClsSummingMergeTree date_col
              key_expressions sampling index_granularity None None)
    as [err | mt] eqn:Hbase; [discriminate |].
  injection Hinit as <-.
  apply SummingMergeTree_set_parent_inv in Hattach. simpl in Hattach.
  destruct Hattach as (Hsuper & Hsumming).
  destruct (unreplicated_attached_get_params _ _ _ _ _ _ _ _ Hbase Hsuper)
    as (date & rest & Hparams & Hrname & Hrpath & Hcls).
  exists date, rest.
  unfold base_name. rewrite Hcls.
  destruct attached as [abase asumming]. simpl in *.
  unfold outcome, SummingMergeTree.get_params, bind, on_attr, attr. simpl.
  rewrite Hparams. simpl.
  split; [reflexivity |]. split; [| auto].
  destruct summing_cols as [cols |].
  - destruct Hsumming as (s & _ & ->).
    exists s. eexists. repeat split.
  - subst asumming. reflexivity.
Qed.

(** C6: the parameter list of an attached CollapsingMergeTree is the list
    of its MergeTree part with one item appended, the resolved sign
    column.  That of an attached SummingMergeTree is the list of its
    MergeTree part with one item appended, the rendered tuple of the
    summing columns, when [summing_cols] was given, and that list
    unchanged when it was not. *)
Theorem subclass_params_extend_base `{Escaper} date_col key_expressions
    sampling index_granularity tbl :
  (forall sign_col e attached,
     CollapsingMergeTree.__init__ date_col key_expressions sign_col sampling
       index_granularity = inr e ->
     CollapsingMergeTree._set_parent tbl e = (inr tt, attached) ->
     exists base sign,
       outcome MergeTree.get_params (CollapsingMergeTree.super attached)
       = inr base
       /\ resolved tbl sign_col = Some sign
       /\ outcome TableCol.get_column (CollapsingMergeTree.sign_col attached)
          = inr sign
       /\ outcome CollapsingMergeTree.get_params attached
          = inr (base ++ [PItem (IColumn sign)]))
  /\ (forall summing_cols e attached,
        SummingMergeTree.__init__ date_col key_expressions summing_cols
          sampling index_granularity = inr e ->
        SummingMergeTree._set_parent tbl e = (inr tt, attached) ->
        exists base,
          outcome MergeTree.get_params (SummingMergeTree.super attached)
          = inr base
          /\ match summing_cols with
             | Some _ => exists s items,
                 SummingMergeTree.summing_cols attached = Some s
                 /\ outcome
                      KeysExpressionOrColumn.get_expressions_or_columns s
                    = inr items
                 /\ outcome SummingMergeTree.get_params attached
                    = inr (base ++ [PTuple items])
             | None =>
                 outcome SummingMergeTree.get_params attached = inr base
             end).
Proof.
  split.
  - intros sign_col e attached Hinit Hattach.
    destruct (CollapsingMergeTree_attached_get_params _ _ _ _ _ _ _ _ Hinit
                Hattach)
      as (date & rest & sign & Hbase & Hres & Hget & Hparams & _).
    exists (PItem (IColumn date) :: rest), sign. auto.
  - intros summing_cols e attached Hinit Hattach.
    destruct (SummingMergeTree_attached_get_params _ _ _ _ _ _ _ _ Hinit
                Hattach)
      as (date & rest & Hbase & Hsumming & _).
    exists (PItem (IColumn date) :: rest). auto.
Qed.

Lemma subclass_params_extend_base_witness :
  (exists e attached base,
     CollapsingMergeTree.__init__ (ColName "EventDate") [ArgName "UserID"]
       (ColName "Sign") None None = inr e
     /\ CollapsingMergeTree._set_parent hits e = (inr tt, attached)
     /\ outcome (MergeTree.get_params (H := quoting))
          (CollapsingMergeTree.super attached) = inr base
     /\ outcome (CollapsingMergeTree.get_params (H := quoting)) attached
        = inr (base ++ [PItem (IColumn Sign)]))
  /\ (exists e attached base s items,
        SummingMergeTree.__init__ (ColName "EventDate") [ArgName "UserID"]
          (Some [ArgName "Sign"]) None None = inr e
        /\ SummingMergeTree._set_parent hits e = (inr tt, attached)
        /\ outcome (MergeTree.get_params (H := quoting))
             (SummingMergeTree.super attached) = inr base
        /\ SummingMergeTree.summing_cols attached = Some s
        /\ outcome KeysExpressionOrColumn.get_expressions_or_columns s
           = inr items
        /\ outcome (SummingMergeTree.get_params (H := quoting)) attached
           = inr (base ++ [PTuple items])).
Proof.
  destruct (@subclass_params_extend_base quoting (ColName "EventDate")
              [ArgName "UserID"] None None hits) as (Hcollapsing & Hsumming).
  split.
  - destruct (Hcollapsing (ColName "Sign") _ _ eq_refl eq_refl)
      as (base & sign & Hbase & Hres & _ & Hparams).
    injection Hres as <-.
    refine (ex_intro _ _ (ex_intro _ _ (ex_intro _ base
              (conj _ (conj _ (conj Hbase Hparams)))))); reflexivity.
  - destruct (Hsumming (Some [ArgName "Sign"]) _ _ eq_refl eq_refl)
      as (base & Hbase & s & items & Hfield & Hitems & Hparams).
    refine (ex_intro _ _ (ex_intro _ _ (ex_intro _ base (ex_intro _ s
              (ex_intro _ items
                 (conj _ (conj _ (conj Hbase (conj Hfield
                    (conj Hitems Hparams)))))))))); reflexivity.
Defined.

(** C10: a CollapsingMergeTree and a SummingMergeTree are never
    replicated.  Their constructors take no replication coordinates and
    cannot raise the [Exception] of the replication check; every
    descriptor they return has [replica_name] and [replica_table_path] at
    [None], and attaching keeps them so.  Hence [name()] is the bare class
    name, before and after attach, and the attached parameter list starts
    with the date column, not with escaped coordinates. *)
Theorem subclasses_never_replicated `{Escaper} date_col key_expressions
    sampling index_granularity :
  (forall sign_col,
     (forall msg,
        CollapsingMergeTree.__init__ date_col key_expressions sign_col
          sampling index_granularity <> inl (Exception msg))
     /\ forall e,
          CollapsingMergeTree.__init__ date_col key_expressions sign_col
            sampling index_granularity = inr e ->
          MergeTree.replica_name (CollapsingMergeTree.super e) = None
          /\ MergeTree.replica_table_path (CollapsingMergeTree.super e) = None
          /\ outcome CollapsingMergeTree.name e = inr "CollapsingMergeTree"
          /\ forall tbl attached,
               CollapsingMergeTree._set_parent tbl e = (inr tt, attached) ->
               MergeTree.replica_name (CollapsingMergeTree.super attached)
               = None
               /\ MergeTree.replica_table_path
                    (CollapsingMergeTree.super attached) = None
               /\ outcome CollapsingMergeTree.name attached
                  = inr "CollapsingMergeTree"
               /\ exists date rest,
                    outcome CollapsingMergeTree.get_params attached
                    = inr (PItem (IColumn date) :: rest))
  /\ (forall summing_cols,
        (forall msg,
           SummingMergeTree.__init__ date_col key_expressions summing_cols
             sampling index_granularity <> inl (Exception msg))
        /\ forall e,
             SummingMergeTree.__init__ date_col key_expressions summing_cols
               sampling index_granularity = inr e ->
             MergeTree.replica_name (SummingMergeTree.super e) = None
             /\ MergeTree.replica_table_path (SummingMergeTree.super e) = None
             /\ outcome SummingMergeTree.name e = inr "SummingMergeTree"
             /\ forall tbl attached,
                  SummingMergeTree._set_parent tbl e = (inr tt, attached) ->
                  MergeTree.replica_name (SummingMergeTree.super attached)
                  = None
                  /\ MergeTree.replica_table_path
                       (SummingMergeTree.super attached) = None
                  /\ outcome SummingMergeTree.name attached
                     = inr "SummingMergeTree"
                  /\ exists date rest,
                       outcome SummingMergeTree.get_params attached
                       = inr (PItem (IColumn date) :: rest)).
Proof.
  split.
  - intros sign_col. split; [intros msg; discriminate |].
    intros e Hinit.
    assert (Hbuilt : CollapsingMergeTree.__init__ date_col key_expressions
                       sign_col sampling index_granularity = inr e)
      by exact Hinit.
    injection Hinit as <-.
    split; [reflexivity |]. split; [reflexivity |]. split; [reflexivity |].
    intros tbl attached Hattach.
    destruct (CollapsingMergeTree_attached_get_params date_col key_expressions
                sign_col sampling index_granularity tbl _ _ Hbuilt Hattach)
      as (date & rest & sign & _ & _ & _ & Hparams & Hrname & Hrpath & Hcls).
    split; [exact Hrname |]. split; [exact Hrpath |]. split.
    + unfold outcome, CollapsingMergeTree.name, on_attr.
      rewrite MergeTree_name_eq. simpl.
      unfold replicated. rewrite Hrname, Hcls. reflexivity.
    + exists date. eexists. rewrite Hparams. reflexivity.
  - intros summing_cols. split; [intros msg; discriminate |].
    intros e Hinit.
    assert (Hbuilt : SummingMergeTree.__init__ date_col key_expressions
                       summing_cols sampling index_granularity = inr e)
      by exact Hinit.
    injection Hinit as <-.
    split; [reflexivity |]. split; [reflexivity |]. split; [reflexivity |].
    intros tbl attached Hattach.
    destruct (SummingMergeTree_attached_get_params date_col key_expressions
                summing_cols sampling index_granularity tbl _ _ Hbuilt Hattach)
      as (date & rest & _ & Hparams & Hrname & Hrpath & Hcls).
    split; [exact Hrname |]. split; [exact Hrpath |]. split.
    + unfold outcome, SummingMergeTree.name, on_attr.
      rewrite MergeTree_name_eq. simpl.
      unfold replicated. rewrite Hrname, Hcls. reflexivity.
    + destruct summing_cols as [cols |].
      * destruct Hparams as (s & items & _ & _ & Hparams).
        exists date. eexists. rewrite Hparams. reflexivity.
      * exists date, rest. exact Hparams.
Qed.

Lemma subclasses_never_replicated_witness :
  exists e attached date rest,
    SummingMergeTree.__init__ (ColName "EventDate") [ArgName "UserID"]
      (Some [ArgName "Sign"]) None None = inr e
    /\ SummingMergeTree._set_parent hits e = (inr tt, attached)
    /\ outcome SummingMergeTree.name attached = inr "SummingMergeTree"
    /\ outcome (SummingMergeTree.get_params (H := quoting)) attached
       = inr (PItem (IColumn date) :: rest).
Proof.
  assert (Hinit : exists e,
    SummingMergeTree.__init__ (ColName "EventDate") [ArgName "UserID"]
      (Some [ArgName "Sign"]) None None = inr e).
  { eexists. reflexivity. }
  destruct Hinit as (e & Hinit).
  destruct (proj2 (proj2 (@subclasses_never_replicated quoting
                            (ColName "EventDate") [ArgName "UserID"] None
                            None) (Some [ArgName "Sign"])) e Hinit)
    as (_ & _ & _ & Hattached).
  injection Hinit as Hinit.
  destruct (Hattached hits (after (SummingMergeTree._set_parent hits) e))
    as (_ & _ & Hname & date & rest & Hparams).
  { rewrite <- Hinit. reflexivity. }
  exists e, (after (SummingMergeTree._set_parent hits) e), date, rest.
  repeat split; try assumption; rewrite <- Hinit; reflexivity.
Defined.

(** ** Calls before attach *)

(** C4, as stated, fails: no method checks whether the descriptor was
    attached.  On a MergeTree that was built and never attached ([table]
    still unset) [name()] returns its name; [get_params()] of a Memory
    engine returns the empty list without any attach. *)
Lemma name_before_attach_counterexample :
  exists mt,
    MergeTree.__init__ ClsMergeTree (ColName "EventDate") [ArgName "UserID"]
      None None None None = inr mt
    /\ Engine.table (MergeTree.super mt) = None
    /\ outcome name (AMergeTree mt) = inr "MergeTree"
    /\ outcome (get_params (H := quoting)) (AMemory Memory.__init__) = inr [].
Proof. eexists. repeat split. Qed.

(** C4, amended: before attach, the column accessor of a column declared
    by bare name fails, with the [IndexError] of reading the first element
    of the still empty column collection, and so does [get_params()] of
    every MergeTree, CollapsingMergeTree and SummingMergeTree whose date
    column was declared by bare name.  [name()] does not depend on attach:
    on the descriptor as built it returns the engine name,
    ["ReplicatedMergeTree"] or ["MergeTree"] by the truth value of
    [replica_name], and the class name for the other classes.
    [get_params()] of Buffer, Memory and Merge does not depend on attach
    either: on the descriptor as built it returns the nine constructor
    values of a Buffer, the empty list for a Memory, and the database and
    the escaped pattern for a Merge. *)
Theorem calls_before_attach `{Escaper} :
  (forall column,
     outcome TableCol.get_column (TableCol.__init__ (ColName column))
     = inl IndexError)
  /\ (forall date key_expressions sampling index_granularity rname rpath e,
        MergeTree.__init__ ClsMergeTree (ColName date) key_expressions
          sampling index_granularity rname rpath = inr e ->
        outcome name (AMergeTree e)
        = inr (if truthy rname then "ReplicatedMergeTree" else "MergeTree")
        /\ outcome get_params (AMergeTree e) = inl IndexError)
  /\ (forall date key_expressions sign_col sampling index_granularity e,
        CollapsingMergeTree.__init__ (ColName date) key_expressions sign_col
          sampling index_granularity = inr e ->
        outcome name (ACollapsingMergeTree e) = inr "CollapsingMergeTree"
        /\ outcome get_params (ACollapsingMergeTree e) = inl IndexError)
  /\ (forall date key_expressions summing_cols sampling index_granularity e,
        SummingMergeTree.__init__ (ColName date) key_expressions summing_cols
          sampling index_granularity = inr e ->
        outcome name (ASummingMergeTree e) = inr "SummingMergeTree"
        /\ outcome get_params (ASummingMergeTree e) = inl IndexError)
  /\ (forall database table num_layers min_time max_time min_rows max_rows
             min_bytes max_bytes,
        let e := ABuffer (Buffer.__init__ database table num_layers min_time
                            max_time min_rows max_rows min_bytes max_bytes) in
        outcome name e = inr "Buffer"
        /\ outcome get_params e
           = inr [PString database; PString table;
                  PInt (default 16%Z num_layers);
                  PInt (default 10%Z min_time);
                  PInt (default 100%Z max_time);
                  PInt (default 10000%Z min_rows);
                  PInt (default 1000000%Z max_rows);
                  PInt (default 10000000%Z min_bytes);
                  PInt (default 100000000%Z max_bytes)])
  /\ (outcome name (AMemory Memory.__init__) = inr "Memory"
      /\ outcome get_params (AMemory Memory.__init__) = inr [])
  /\ (forall db regexp,
        outcome name (AMerge (Merge.__init__ db regexp)) = inr "Merge"
        /\ outcome get_params (AMerge (Merge.__init__ db regexp))
           = inr [PString db; PString (escape_string regexp)]).
Proof.
  split; [reflexivity |].
  assert (Hbase : forall cls date key_expressions sampling index_granularity
                         rname rpath e,
    MergeTree.__init__ cls (ColName date) key_expressions sampling
      index_granularity rname rpath = inr e ->
    MergeTree.get_params e = (inl IndexError, e)
    /\ MergeTree.name e
       = (inr (String.append (if truthy rname then "Replicated" else "")
                 (__name__ cls)), e)).
  { intros cls date key_expressions sampling index_granularity rname rpath e
      Hinit.
    unfold MergeTree.__init__ in Hinit.
    destruct (MergeTree.half_replicated rname rpath) eqn:Hhalf;
      [discriminate |].
    injection Hinit as <-.
    apply half_replicated_false_inv in Hhalf.
    split; [| reflexivity].
    unfold MergeTree.get_params, bind, attr, on_attr. simpl.
    destruct (truthy rname); [| reflexivity].
    destruct Hhalf as (p & n & -> & -> & _). reflexivity. }
  split; [| split; [| split; [| split; [| split]]]].
  - intros date keys sampling gran rname rpath e Hinit.
    apply Hbase in Hinit. destruct Hinit as (Hparams & Hname).
    unfold outcome, name, get_params, dispatch.
    rewrite Hparams, Hname. simpl.
    destruct (truthy rname); split; reflexivity.
  - intros date keys sign sampling gran e Hinit.
    unfold CollapsingMergeTree.__init__ in Hinit.
    destruct (MergeTree.__init__ ClsCollapsingMergeTree (ColName date) keys
                sampling gran None None) as [err | mt] eqn:Hmt;
      [discriminate |].
    injection Hinit as <-. apply Hbase in Hmt.
    destruct Hmt as (Hparams & Hname).
    split.
    + unfold outcome, name, dispatch, CollapsingMergeTree.name, on_attr.
      cbn [CollapsingMergeTree.super]. rewrite Hname. reflexivity.
    + unfold outcome, get_params, dispatch, CollapsingMergeTree.get_params,
        bind, on_attr.
      cbn [CollapsingMergeTree.super]. rewrite Hparams. reflexivity.
  - intros date keys summing sampling gran e Hinit.
    unfold SummingMergeTree.__init__ in Hinit.
    destruct (MergeTree.__init__ ClsSummingMergeTree (ColName date) keys
                sampling gran None None) as [err | mt] eqn:Hmt;
      [discriminate |].
    injection Hinit as <-. apply Hbase in Hmt.
    destruct Hmt as (Hparams & Hname).
    split.
    + unfold outcome, name, dispatch, SummingMergeTree.name, on_attr.
      cbn [SummingMergeTree.super]. rewrite Hname. reflexivity.
    + unfold outcome, get_params, dispatch, SummingMergeTree.get_params,
        bind, on_attr.
      cbn [SummingMergeTree.super]. rewrite Hparams. reflexivity.
  - intros. split; reflexivity.
  - split; reflexivity.
  - intros. split; reflexivity.
Qed.

Lemma calls_before_attach_witness :
  exists mt,
    MergeTree.__init__ ClsMergeTree (ColName "EventDate") [ArgName "UserID"]
      None None (Some "r1") (Some "/p") = inr mt
    /\ outcome name (AMergeTree mt) = inr "ReplicatedMergeTree"
    /\ outcome (get_params (H := quoting)) (AMergeTree mt) = inl IndexError.
Proof.
  eexists. split; [reflexivity |].
  exact (proj1 (proj2 (@calls_before_attach quoting)) "EventDate"
           [ArgName "UserID"] None None (Some "r1") (Some "/p") _ eq_refl).
Defined.

(** ** The key list *)

(** C1 fails on the code: [get_expressions_or_columns] pairs the inputs
    with the resolved columns by position, but an expression that holds no
    column object adds no column, so the columns after it move one slot
    forward.  For the key [(text("intHash32(UserID)"), "EventDate")]
    attached to a table that has [EventDate], the attach succeeds and the
    second slot holds [None], not the column [EventDate]. *)
Theorem name_after_column_free_expression_gets_None :
  c_getitem hits "EventDate" = Some EventDate
  /\ outcome (KeysExpressionOrColumn._set_parent hits)
       (KeysExpressionOrColumn.__init__ [ArgClause bucket; ArgName "EventDate"])
     = inr tt
  /\ attached_call
       (inr (KeysExpressionOrColumn.__init__
               [ArgClause bucket; ArgName "EventDate"]))
       (KeysExpressionOrColumn._set_parent hits)
       KeysExpressionOrColumn.get_expressions_or_columns
     = inr [IClause bucket; INone].
Proof. repeat split. Qed.

(** Where the round trip does hold: when every input adds a column (a
    name, or an expression that holds a column object) and no two of these
    columns share a key, every slot holds the expression or the resolved
    column of its own position. *)

Lemma setitem_fresh k v (d : ColumnCollection.t) :
  ~ In k (map fst d) -> ColumnCollection.setitem k v d = d ++ [(k, v)].
Proof.
  induction d as [| [k' v'] d IH]; simpl; intros Hfresh.
  - reflexivity.
  - destruct (k' =? k) eqn:E.
    + apply String.eqb_eq in E. tauto.
    + rewrite IH; [reflexivity | tauto].
Qed.

Lemma add_all_fresh (cols : list Column) :
  forall d : ColumnCollection.t,
    NoDup (map fst d ++ map key cols) ->
    ColumnCollection.to_list
      (fold_left (fun acc col => ColumnCollection.add col acc) cols d)
    = ColumnCollection.to_list d ++ cols.
Proof.
  induction cols as [| col cols IH]; intros d Hnodup; simpl.
  - rewrite app_nil_r. reflexivity.
  - unfold ColumnCollection.add at 2.
    rewrite setitem_fresh.
    + rewrite IH.
      * unfold ColumnCollection.to_list. rewrite map_app, <- app_assoc.
        reflexivity.
      * rewrite map_app, <- app_assoc. exact Hnodup.
    + intros Hin. simpl in Hnodup. apply NoDup_remove_2 in Hnodup.
      apply Hnodup. apply in_or_app. left. exact Hin.
Qed.

Lemma add_all_resolved tbl pending cols :
  Forall2 (fun p col => resolved tbl p = Some col) pending cols ->
  forall self,
    ColumnCollectionMixin.add_all tbl pending self
    = (inr tt,
       ColumnCollectionMixin.set_columns
         (fold_left (fun acc col => ColumnCollection.add col acc) cols
            (ColumnCollectionMixin.columns self))
         self).
Proof.
  induction 1 as [| p col pending cols Hres _ IH]; intros self; simpl.
  - destruct self; reflexivity.
  - unfold bind at 1.
    assert (Hrun : ColumnCollectionMixin.resolve tbl p self = (inr col, self)).
    { destruct p as [name | found]; simpl in *.
      - rewrite Hres. reflexivity.
      - injection Hres as <-. reflexivity. }
    rewrite Hrun. unfold bind, assign. rewrite IH. destruct self; reflexivity.
Qed.

Lemma init_aligned tbl args cols :
  Forall2 (fun arg col => contributed tbl arg = Some col) args cols ->
  exists pending,
    KeysExpressionOrColumn.__init__ args
    = {| KeysExpressionOrColumn.super := ColumnCollectionMixin.__init__ pending;
         KeysExpressionOrColumn.expressions := args |}
    /\ Forall2 (fun p col => resolved tbl p = Some col) pending cols.
Proof.
  unfold KeysExpressionOrColumn.__init__,
    ColumnCollectionMixin._extract_col_expression_collection.
  induction 1 as [| arg col args cols Hcol _ IH]; simpl.
  - exists []. split; [reflexivity | constructor].
  - destruct IH as (pending & Hinit & Hres).
    destruct (KeysExpressionOrColumn.collect
                (map ColumnCollectionMixin.extract_one args))
      as [columns exprs].
    injection Hinit as -> ->.
    destruct arg as [name | e]; simpl in *.
    + exists (ColName name :: pending). split; [reflexivity |].
      constructor; assumption.
    + rewrite Hcol. simpl.
      exists (ColObject col :: pending). split; [reflexivity |].
      constructor; [reflexivity | assumption].
Qed.

Lemma pick_aligned tbl args cols :
  Forall2 (fun arg col => contributed tbl arg = Some col) args cols ->
  map KeysExpressionOrColumn.pick (zip_longest args cols)
  = map (fun pair => slot (fst pair) (snd pair)) (combine args cols).
Proof.
  induction 1 as [| arg col args cols _ _ IH]; simpl.
  - reflexivity.
  - rewrite IH. destruct arg; reflexivity.
Qed.

Lemma keys_round_trip_when_aligned tbl args cols :
  Forall2 (fun arg col => contributed tbl arg = Some col) args cols ->
  NoDup (map key cols) ->
  attached_call (inr (KeysExpressionOrColumn.__init__ args))
    (KeysExpressionOrColumn._set_parent tbl)
    KeysExpressionOrColumn.get_expressions_or_columns
  = inr (map (fun pair => slot (fst pair) (snd pair)) (combine args cols)).
Proof.
  intros Haligned Hnodup.
  destruct (init_aligned _ _ _ Haligned) as (pending & -> & Hres).
  unfold attached_call, outcome, bind, KeysExpressionOrColumn._set_parent,
    on_attr, ColumnCollectionMixin._set_parent, bind, attr. simpl.
  rewrite (add_all_resolved _ _ _ Hres). simpl.
  rewrite add_all_fresh; [| exact Hnodup]. simpl.
  rewrite (pick_aligned _ _ _ Haligned). reflexivity.
Qed.

Example keys_round_trip_sample :
  attached_call
    (inr (KeysExpressionOrColumn.__init__
            [ArgName "EventDate";
             ArgClause {| sql := "intHash32(UserID)";
                          traversed_columns := [UserID] |};
             ArgName "Sign"]))
    (KeysExpressionOrColumn._set_parent hits)
    KeysExpressionOrColumn.get_expressions_or_columns
  = inr [IColumn EventDate;
         IClause {| sql := "intHash32(UserID)"; traversed_columns := [UserID] |};
         IColumn Sign].
Proof.
  refine (keys_round_trip_when_aligned hits
            [ArgName "EventDate";
             ArgClause {| sql := "intHash32(UserID)";
                          traversed_columns := [UserID] |};
             ArgName "Sign"]
            [EventDate; UserID; Sign] _ _).
  - repeat constructor.
  - repeat constructor; simpl; intuition discriminate.
Qed.

(** ** Attach: which column names it looks up, and what a failure leaves *)

Lemma outcome_bind {Self A B} (m : Method Self A) (k : A -> Method Self B)
    self :
  outcome (bind m k) self
  = match outcome m self with
    | inl e => inl e
    | inr a => outcome (k a) (after m self)
    end.
Proof.
  unfold outcome, after, bind.
  destruct (m self) as [[e | a] self']; reflexivity.
Qed.

Lemma after_bind_eq {Self A B} (m : Method Self A) (k : A -> Method Self B)
    self :
  after (bind m k) self
  = match outcome m self with
    | inl e => after m self
    | inr a => after (k a) (after m self)
    end.
Proof.
  unfold outcome, after, bind.
  destruct (m self) as [[e | a] self']; reflexivity.
Qed.

Lemma outcome_on_attr_eq {Self Child A} (get : Self -> Child)
    (set : Child -> Self -> Self) (m : Method Child A) self :
  outcome (on_attr get set m) self = outcome m (get self).
Proof.
  unfold outcome, on_attr. destruct (m (get self)); reflexivity.
Qed.

Lemma after_on_attr_eq {Self Child A} (get : Self -> Child)
    (set : Child -> Self -> Self) (m : Method Child A) self :
  after (on_attr get set m) self = set (after m (get self)) self.
Proof.
  unfold after, on_attr. destruct (m (get self)); reflexivity.
Qed.

Lemma find_app {A} (f : A -> bool) (xs ys : list A) :
  find f (xs ++ ys)
  = match find f xs with
    | Some x => Some x
    | None => find f ys
    end.
Proof.
  induction xs as [| x xs IH]; simpl; [reflexivity |].
  destruct (f x); [reflexivity | exact IH].
Qed.

Lemma lookup_all_app tbl (xs ys : list string) :
  lookup_all tbl (xs ++ ys)
  = match lookup_all tbl xs with
    | inl e => inl e
    | inr _ => lookup_all tbl ys
    end.
Proof.
  unfold lookup_all, first_unknown. rewrite find_app.
  destruct (find _ xs); reflexivity.
Qed.

Lemma add_all_outcome tbl (pending : list ColArg) :
  forall self,
    outcome (ColumnCollectionMixin.add_all tbl pending) self
    = lookup_all tbl (flat_map names_of_col pending).
Proof.
  induction pending as [| col rest IH]; intros self; [reflexivity |].
  simpl ColumnCollectionMixin.add_all. rewrite outcome_bind.
  destruct col as [name | found]; simpl.
  - unfold lookup_all, first_unknown. simpl. unfold known.
    destruct (c_getitem tbl name) as [found |]; simpl; [| reflexivity].
    rewrite outcome_bind. simpl. rewrite IH. reflexivity.
  - rewrite outcome_bind. simpl. apply IH.
Qed.

(** What [KeysExpressionOrColumn.__init__] stores: the inputs as they
    are, and one pending column argument for each input that adds one. *)
Lemma key_init_pending (args : list KeyArg) :
  exists pending,
    KeysExpressionOrColumn.__init__ args
    = {| KeysExpressionOrColumn.super := ColumnCollectionMixin.__init__ pending;
         KeysExpressionOrColumn.expressions := args |}
    /\ flat_map names_of_col pending = names_of_key args
    /\ length pending <= length args.
Proof.
  unfold KeysExpressionOrColumn.__init__,
    ColumnCollectionMixin._extract_col_expression_collection.
  induction args as [| arg args IH]; simpl.
  - exists []. split; [reflexivity |]. split; [reflexivity | simpl; lia].
  - destruct IH as (pending & Hinit & Hnames & Hlen).
    destruct (KeysExpressionOrColumn.collect
                (map ColumnCollectionMixin.extract_one args))
      as [columns exprs].
    injection Hinit as -> ->.
    destruct arg as [name | e]; simpl.
    + exists (ColName name :: pending). simpl. rewrite Hnames.
      split; [reflexivity |]. split; [reflexivity | lia].
    + destruct (hd_error (traversed_columns e)) as [col |]; simpl.
      * exists (ColObject col :: pending). simpl.
        split; [reflexivity |]. split; [assumption | lia].
      * exists pending.
        split; [reflexivity |]. split; [assumption | lia].
Qed.

Lemma mixin_attach_outcome tbl (self : ColumnCollectionMixin.t) :
  outcome (ColumnCollectionMixin._set_parent tbl) self
  = lookup_all tbl
      (flat_map names_of_col (ColumnCollectionMixin._pending_colargs self)).
Proof.
  change (outcome
            (ColumnCollectionMixin.add_all tbl
               (ColumnCollectionMixin._pending_colargs self)) self
          = lookup_all tbl
              (flat_map names_of_col
                 (ColumnCollectionMixin._pending_colargs self))).
  apply add_all_outcome.
Qed.

Lemma TableCol_attach_outcome tbl (col : ColArg) :
  outcome (TableCol._set_parent tbl) (TableCol.__init__ col)
  = lookup_all tbl (names_of_col col).
Proof.
  unfold TableCol._set_parent. rewrite mixin_attach_outcome. simpl.
  rewrite app_nil_r. reflexivity.
Qed.

Lemma key_attach_outcome_eq tbl (args : list KeyArg) :
  outcome (KeysExpressionOrColumn._set_parent tbl)
    (KeysExpressionOrColumn.__init__ args)
  = lookup_all tbl (names_of_key args).
Proof.
  destruct (key_init_pending args) as (pending & -> & <- & _).
  unfold KeysExpressionOrColumn._set_parent.
  rewrite outcome_on_attr_eq, mixin_attach_outcome. reflexivity.
Qed.

(** [MergeTree._set_parent], step by step: [table] is assigned first, then
    the date column, the key and the sampling descriptor are attached in
    this order, and the first failure ends the call. *)
Lemma MergeTree_set_parent_run tbl base date keys samp gran rname rpath :
  MergeTree._set_parent tbl
    {| MergeTree.super := base; MergeTree.date_col := date;
       MergeTree.key_cols := keys; MergeTree.sampling := samp;
       MergeTree.index_granularity := gran;
       MergeTree.replica_name := rname;
       MergeTree.replica_table_path := rpath |}
  = let base' := {| Engine.__class__ := Engine.__class__ base;
                    Engine.table := Some tbl |} in
    let finish r date' keys' samp' :=
      (r, {| MergeTree.super := base'; MergeTree.date_col := date';
             MergeTree.key_cols := keys'; MergeTree.sampling := samp';
             MergeTree.index_granularity := gran;
             MergeTree.replica_name := rname;
             MergeTree.replica_table_path := rpath |}) in
    match TableCol._set_parent tbl date with
    | (inl e, date') => finish (inl e) date' keys samp
    | (inr _, date') =>
        match KeysExpressionOrColumn._set_parent tbl keys with
        | (inl e, keys') => finish (inl e) date' keys' samp
        | (inr _, keys') =>
            match samp with
            | Some s =>
                let '(r, s') := KeysExpressionOrColumn._set_parent tbl s in
                finish r date' keys' (Some s')
            | None => finish (inr tt) date' keys' None
            end
        end
    end.
Proof.
  unfold MergeTree._set_parent, bind, on_attr, attr, Engine._set_parent,
    assign, ret. simpl.
  destruct (TableCol._set_parent tbl date) as [[e | []] date']; simpl;
    [reflexivity |].
  destruct (KeysExpressionOrColumn._set_parent tbl keys) as [[e | []] keys'];
    simpl; [reflexivity |].
  destruct samp as [s |]; simpl; [| reflexivity].
  destruct (KeysExpressionOrColumn._set_parent tbl s) as [r s']. reflexivity.
Qed.

Lemma MergeTree_attach_outcome cls date_col key_expressions sampling
    index_granularity rname rpath tbl mt :
  MergeTree.__init__ cls date_col key_expressions sampling index_granularity
    rname rpath = inr mt ->
  outcome (MergeTree._set_parent tbl) mt
  = lookup_all tbl (names_of_col date_col ++ names_of_key key_expressions
                      ++ names_of_sampling sampling).
Proof.
  unfold MergeTree.__init__.
  destruct (MergeTree.half_replicated rname rpath); [discriminate |].
  intros Hinit. injection Hinit as <-.
  assert (Hsampling :
    match sampling with
    | Some arg =>
        outcome (KeysExpressionOrColumn._set_parent tbl)
          (KeysExpressionOrColumn.__init__ [arg])
    | None => inr tt
    end = lookup_all tbl (names_of_sampling sampling)).
  { destruct sampling as [arg |]; [apply key_attach_outcome_eq | reflexivity]. }
  unfold outcome at 1. rewrite MergeTree_set_parent_run.
  rewrite !lookup_all_app.
  rewrite <- TableCol_attach_outcome, <- key_attach_outcome_eq, <- Hsampling.
  unfold outcome.
  destruct (TableCol._set_parent tbl (TableCol.__init__ date_col))
    as [[e | []] date']; [reflexivity |].
  destruct (KeysExpressionOrColumn._set_parent tbl
              (KeysExpressionOrColumn.__init__ key_expressions))
    as [[e | []] keys']; [reflexivity |].
  destruct sampling as [arg |]; [| reflexivity].
  destruct (KeysExpressionOrColumn._set_parent tbl
              (KeysExpressionOrColumn.__init__ [arg])) as [r s'].
  reflexivity.
Qed.

Lemma lookup_all_ok tbl (names : list string) :
  lookup_all tbl names = inr tt
  <-> forall name, In name names -> known tbl name = true.
Proof.
  unfold lookup_all, first_unknown. split.
  - destruct (find _ names) as [bad |] eqn:E; [discriminate |].
    intros _ name Hin.
    pose proof (find_none _ _ E name Hin) as Hknown. simpl in Hknown.
    destruct (known tbl name); [reflexivity | discriminate].
  - intros Hall.
    destruct (find _ names) as [bad |] eqn:E; [| reflexivity].
    apply find_some in E. destruct E as (Hin & Hbad).
    rewrite (Hall bad Hin) in Hbad. discriminate.
Qed.

Lemma lookup_all_KeyError tbl (names : list string) e :
  lookup_all tbl names = inl e ->
  exists name, e = KeyError name /\ In name names /\ known tbl name = false.
Proof.
  unfold lookup_all, first_unknown.
  destruct (find _ names) as [bad |] eqn:E; [| discriminate].
  intros Heq. injection Heq as <-.
  apply find_some in E. destruct E as (Hin & Hbad).
  exists bad. split; [reflexivity |]. split; [exact Hin |].
  destruct (known tbl bad); [discriminate | reflexivity].
Qed.

(** X1: attaching a MergeTree looks up the bare column names of the
    descriptor in the order date column, key, sampling.  It succeeds
    exactly when the table has all of them; otherwise it raises the
    [KeyError] of the first one that the table lacks, and no other
    error. *)
Theorem MergeTree_attach_first_unknown_column date_col key_expressions
    sampling index_granularity rname rpath tbl mt :
  MergeTree.__init__ ClsMergeTree date_col key_expressions sampling
    index_granularity rname rpath = inr mt ->
  let names := names_of_col date_col ++ names_of_key key_expressions
                 ++ names_of_sampling sampling in
  outcome (MergeTree._set_parent tbl) mt
  = match first_unknown tbl names with
    | Some name => inl (KeyError name)
    | None => inr tt
    end
  /\ (outcome (MergeTree._set_parent tbl) mt = inr tt
      <-> forall name, In name names -> known tbl name = true)
  /\ forall e,
       outcome (MergeTree._set_parent tbl) mt = inl e ->
       exists name,
         e = KeyError name /\ In name names /\ known tbl name = false.
Proof.
  intros Hinit names.
  rewrite (MergeTree_attach_outcome _ _ _ _ _ _ _ tbl _ Hinit).
  fold names. split; [reflexivity |]. split.
  - apply lookup_all_ok.
  - intros e. apply lookup_all_KeyError.
Qed.

Lemma MergeTree_attach_first_unknown_column_witness :
  exists mt,
    MergeTree.__init__ ClsMergeTree (ColName "EventDate")
      [ArgName "UserID"; ArgName "Region"; ArgName "City"]
      (Some (ArgName "Bucket")) None None None = inr mt
    /\ outcome (MergeTree._set_parent hits) mt = inl (KeyError "Region").
Proof.
  eexists. split; [reflexivity |].
  exact (proj1 (MergeTree_attach_first_unknown_column (ColName "EventDate")
                  [ArgName "UserID"; ArgName "Region"; ArgName "City"]
                  (Some (ArgName "Bucket")) None None None hits _ eq_refl)).
Defined.

Lemma MergeTree_attach_frame tbl (mt : MergeTree.t) :
  let mt' := after (MergeTree._set_parent tbl) mt in
  MergeTree.replica_name mt' = MergeTree.replica_name mt
  /\ MergeTree.replica_table_path mt' = MergeTree.replica_table_path mt
  /\ MergeTree.index_granularity mt' = MergeTree.index_granularity mt
  /\ Engine.__class__ (MergeTree.super mt')
     = Engine.__class__ (MergeTree.super mt)
  /\ Engine.table (MergeTree.super mt') = Some tbl.
Proof.
  destruct mt as [base date keys samp gran rname rpath].
  unfold after. rewrite MergeTree_set_parent_run.
  destruct (TableCol._set_parent tbl date) as [[e | []] date'];
    [simpl; auto |].
  destruct (KeysExpressionOrColumn._set_parent tbl keys) as [[e | []] keys'];
    [simpl; auto |].
  destruct samp as [s |]; [| simpl; auto].
  destruct (KeysExpressionOrColumn._set_parent tbl s) as [r s']. simpl. auto.
Qed.

(** X2: a failed attach is not undone.  When the table has the date
    column but lacks a name of the key, [MergeTree._set_parent] raises the
    [KeyError] of that name, and the descriptor keeps what was done before
    the failure: [table] is set and the date column is bound, so
    [date_col.get_column()] returns it; the sampling descriptor was not
    reached and is unchanged. *)
Theorem failed_attach_keeps_partial_binding cls date key_expressions sampling
    index_granularity rname rpath tbl mt found missing :
  MergeTree.__init__ cls (ColName date) key_expressions sampling
    index_granularity rname rpath = inr mt ->
  c_getitem tbl date = Some found ->
  first_unknown tbl (names_of_key key_expressions) = Some missing ->
  let failed := after (MergeTree._set_parent tbl) mt in
  outcome (MergeTree._set_parent tbl) mt = inl (KeyError missing)
  /\ Engine.table (MergeTree.super failed) = Some tbl
  /\ outcome TableCol.get_column (MergeTree.date_col failed) = inr found
  /\ MergeTree.sampling failed = MergeTree.sampling mt.
Proof.
  intros Hinit Hdate Hmissing failed.
  split.
  - rewrite (MergeTree_attach_outcome _ _ _ _ _ _ _ tbl _ Hinit).
    rewrite !lookup_all_app.
    unfold lookup_all at 1, first_unknown. simpl. unfold known.
    rewrite Hdate. simpl.
    unfold lookup_all. rewrite Hmissing. reflexivity.
  - split; [apply MergeTree_attach_frame |].
    unfold MergeTree.__init__ in Hinit.
    destruct (MergeTree.half_replicated rname rpath); [discriminate |].
    injection Hinit as <-.
    pose proof (key_attach_outcome_eq tbl key_expressions) as Hkeys.
    unfold lookup_all in Hkeys. rewrite Hmissing in Hkeys.
    pose proof (TableCol_attach_outcome tbl (ColName date)) as Hcol.
    unfold lookup_all, first_unknown in Hcol. simpl in Hcol.
    unfold known in Hcol. rewrite Hdate in Hcol. simpl in Hcol.
    unfold failed, after. rewrite MergeTree_set_parent_run.
    unfold outcome in Hkeys, Hcol.
    destruct (TableCol._set_parent tbl (TableCol.__init__ (ColName date)))
      as [[e | []] date'] eqn:Eattach; simpl in Hcol; [discriminate |].
    apply TableCol_attached in Eattach.
    destruct Eattach as (found' & Hres & Hget). simpl in Hres.
    rewrite Hdate in Hres. injection Hres as <-.
    destruct (KeysExpressionOrColumn._set_parent tbl
                (KeysExpressionOrColumn.__init__ key_expressions))
      as [[e | []] keys']; simpl in Hkeys; [| discriminate].
    simpl. unfold outcome. rewrite Hget. split; reflexivity.
Qed.

Lemma failed_attach_keeps_partial_binding_witness :
  exists mt,
    MergeTree.__init__ ClsMergeTree (ColName "EventDate")
      [ArgName "UserID"; ArgName "Region"] (Some (ArgName "Sign")) None
      None None = inr mt
    /\ outcome (MergeTree._set_parent hits) mt = inl (KeyError "Region")
    /\ outcome TableCol.get_column
         (MergeTree.date_col (after (MergeTree._set_parent hits) mt))
       = inr EventDate.
Proof.
  eexists. split; [reflexivity |].
  destruct (failed_attach_keeps_partial_binding ClsMergeTree "EventDate"
              [ArgName "UserID"; ArgName "Region"] (Some (ArgName "Sign"))
              None None None hits _ EventDate "Region" eq_refl eq_refl eq_refl)
    as (Hout & _ & Hget & _).
  split; [exact Hout | exact Hget].
Defined.

(** X3: the subclasses attach the MergeTree part first and their own
    column descriptor last.  A CollapsingMergeTree looks up the sign
    column after the names of the MergeTree part, a SummingMergeTree the
    summing columns, if any were given; the attach raises the [KeyError]
    of the first unknown name in that order, or succeeds. *)
Theorem subclass_attach_first_unknown_column date_col key_expressions sampling
    index_granularity tbl :
  let names := names_of_col date_col ++ names_of_key key_expressions
                 ++ names_of_sampling sampling in
  (forall sign_col e,
     CollapsingMergeTree.__init__ date_col key_expressions sign_col sampling
       index_granularity = inr e ->
     outcome (CollapsingMergeTree._set_parent tbl) e
     = lookup_all tbl (names ++ names_of_col sign_col))
  /\ (forall summing_cols e,
        SummingMergeTree.__init__ date_col key_expressions summing_cols
          sampling index_granularity = inr e ->
        outcome (SummingMergeTree._set_parent tbl) e
        = lookup_all tbl
            (names ++ match summing_cols with
                      | Some cols => names_of_key cols
                      | None => []
                      end)).
Proof.
  intros names. split.
  - intros sign_col e Hinit.
    unfold CollapsingMergeTree.__init__ in Hinit.
    destruct (MergeTree.__init__ ClsCollapsingMergeTree date_col
                key_expressions sampling index_granularity None None)
      as [err | mt] eqn:Hbase; [discriminate |].
    injection Hinit as <-.
    unfold CollapsingMergeTree._set_parent.
    rewrite outcome_bind, outcome_on_attr_eq. simpl.
    rewrite (MergeTree_attach_outcome _ _ _ _ _ _ _ tbl _ Hbase).
    fold names. rewrite lookup_all_app.
    destruct (lookup_all tbl names) as [err | []]; [reflexivity |].
    rewrite outcome_on_attr_eq, after_on_attr_eq. simpl.
    apply TableCol_attach_outcome.
  - intros summing_cols e Hinit.
    unfold SummingMergeTree.__init__ in Hinit.
    destruct (MergeTree.__init__ ClsSummingMergeTree date_col
                key_expressions sampling index_granularity None None)
      as [err | mt] eqn:Hbase; [discriminate |].
    injection Hinit as <-.
    unfold SummingMergeTree._set_parent.
    rewrite outcome_bind, outcome_on_attr_eq. simpl.
    rewrite (MergeTree_attach_outcome _ _ _ _ _ _ _ tbl _ Hbase).
    fold names. rewrite lookup_all_app.
    destruct (lookup_all tbl names) as [err | []]; [reflexivity |].
    rewrite outcome_bind, after_on_attr_eq. simpl.
    destruct summing_cols as [cols |]; simpl.
    + rewrite outcome_on_attr_eq. apply key_attach_outcome_eq.
    + reflexivity.
Qed.

Lemma subclass_attach_first_unknown_column_witness :
  (exists e,
     CollapsingMergeTree.__init__ (ColName "EventDate") [ArgName "UserID"]
       (ColName "Flag") None None = inr e
     /\ outcome (CollapsingMergeTree._set_parent hits) e
        = inl (KeyError "Flag"))
  /\ (exists e,
        SummingMergeTree.__init__ (ColName "EventDate") [ArgName "UserID"]
          (Some [ArgName "Sign"; ArgName "Clicks"]) None None = inr e
        /\ outcome (SummingMergeTree._set_parent hits) e
           = inl (KeyError "Clicks")).
Proof.
  destruct (subclass_attach_first_unknown_column (ColName "EventDate")
              [ArgName "UserID"] None None hits) as (Hcollapsing & Hsumming).
  split; eexists; (split; [reflexivity |]).
  - exact (Hcollapsing (ColName "Flag") _ eq_refl).
  - exact (Hsumming (Some [ArgName "Sign"; ArgName "Clicks"]) _ eq_refl).
Defined.

(** ** What attach leaves alone *)

Lemma CollapsingMergeTree_attach_super tbl (e : CollapsingMergeTree.t) :
  CollapsingMergeTree.super (after (CollapsingMergeTree._set_parent tbl) e)
  = after (MergeTree._set_parent tbl) (CollapsingMergeTree.super e).
Proof.
  destruct e as [base sign].
  unfold after, CollapsingMergeTree._set_parent, bind, on_attr. simpl.
  destruct (MergeTree._set_parent tbl base) as [[err | []] base']; simpl;
    [reflexivity |].
  destruct (TableCol._set_parent tbl sign) as [r sign']. reflexivity.
Qed.

Lemma SummingMergeTree_attach_super tbl (e : SummingMergeTree.t) :
  SummingMergeTree.super (after (SummingMergeTree._set_parent tbl) e)
  = after (MergeTree._set_parent tbl) (SummingMergeTree.super e).
Proof.
  destruct e as [base summing].
  unfold after, SummingMergeTree._set_parent, bind, on_attr, attr. simpl.
  destruct (MergeTree._set_parent tbl base) as [[err | []] base']; simpl;
    [reflexivity |].
  destruct summing as [s |]; simpl; [| reflexivity].
  destruct (KeysExpressionOrColumn._set_parent tbl s) as [r s']. reflexivity.
Qed.

Lemma after_dispatch_eq {Self A} (wrap : Self -> EngineObject)
    (m : Method Self A) self :
  snd (dispatch wrap m self) = wrap (after m self).
Proof.
  unfold after, dispatch. destruct (m self). reflexivity.
Qed.

Lemma outcome_dispatch_eq {Self A} (wrap : Self -> EngineObject)
    (m : Method Self A) self :
  fst (dispatch wrap m self) = outcome m self.
Proof.
  unfold outcome, dispatch. destruct (m self). reflexivity.
Qed.

(** X4: whatever its outcome, an attach sets the [table] attribute of the
    engine object to the table, for every engine class: the assignment is
    the first thing [_set_parent] does, before any column is looked up. *)
Theorem attach_always_sets_table (obj : EngineObject) (tbl : Table) :
  table_of (after (_set_parent tbl) obj) = Some tbl.
Proof.
  unfold after, _set_parent.
  destruct obj as [e | e | e | e | e | e]; rewrite after_dispatch_eq;
    simpl.
  - apply MergeTree_attach_frame.
  - rewrite CollapsingMergeTree_attach_super. apply MergeTree_attach_frame.
  - rewrite SummingMergeTree_attach_super. apply MergeTree_attach_frame.
  - reflexivity.
  - reflexivity.
  - reflexivity.
Qed.

Lemma MergeTree_name_after_attach tbl (mt : MergeTree.t) :
  outcome MergeTree.name (after (MergeTree._set_parent tbl) mt)
  = outcome MergeTree.name mt.
Proof.
  unfold outcome. rewrite !MergeTree_name_eq. simpl.
  unfold replicated, base_name.
  destruct (MergeTree_attach_frame tbl mt) as (-> & _ & _ & -> & _).
  reflexivity.
Qed.

(** X5: an attach, successful or failed, never changes what [name()]
    returns, for every engine class: the name depends only on the class
    and on [replica_name], which [_set_parent] does not assign. *)
Theorem attach_never_changes_name (obj : EngineObject) (tbl : Table) :
  outcome name (after (_set_parent tbl) obj) = outcome name obj.
Proof.
  unfold after at 1, _set_parent.
  destruct obj as [e | e | e | e | e | e]; rewrite after_dispatch_eq;
    unfold outcome, name; rewrite !outcome_dispatch_eq.
  - apply MergeTree_name_after_attach.
  - unfold CollapsingMergeTree.name. rewrite !outcome_on_attr_eq.
    rewrite CollapsingMergeTree_attach_super.
    apply MergeTree_name_after_attach.
  - unfold SummingMergeTree.name. rewrite !outcome_on_attr_eq.
    rewrite SummingMergeTree_attach_super.
    apply MergeTree_name_after_attach.
  - reflexivity.
  - reflexivity.
  - reflexivity.
Qed.

(** X6: Buffer, Memory and Merge hold no column descriptor.  Attaching one
    of them succeeds on every table, and [get_params()] returns the same
    list before and after: nine items for a Buffer, none for a Memory, two
    for a Merge. *)
Theorem simple_engines_ignore_attach `{Escaper} (obj : EngineObject)
    (tbl : Table) :
  family_base obj = None ->
  outcome (_set_parent tbl) obj = inr tt
  /\ outcome get_params (after (_set_parent tbl) obj) = outcome get_params obj
  /\ exists params,
       outcome get_params obj = inr params
       /\ length params = match obj with
                          | ABuffer _ => 9
                          | AMerge _ => 2
                          | _ => 0
                          end.
Proof.
  destruct obj as [e | e | e | e | e | e]; simpl; try discriminate;
    intros _; (split; [reflexivity |]); (split; [reflexivity |]);
    eexists; split; reflexivity.
Qed.

Lemma simple_engines_ignore_attach_witness :
  outcome (_set_parent {| table_name := "empty"; c := [] |})
    (ABuffer (Buffer.__init__ "db" "hits" None None None None None None None))
  = inr tt
  /\ outcome (get_params (H := quoting))
       (after (_set_parent {| table_name := "empty"; c := [] |})
          (AMerge (Merge.__init__ "db" "^hits")))
     = inr [PString "db"; PString "'^hits'"].
Proof.
  split.
  - apply (@simple_engines_ignore_attach quoting
             (ABuffer (Buffer.__init__ "db" "hits" None None None None None
                         None None))
             {| table_name := "empty"; c := [] |} eq_refl).
  - rewrite (proj1 (proj2 (@simple_engines_ignore_attach quoting
                             (AMerge (Merge.__init__ "db" "^hits"))
                             {| table_name := "empty"; c := [] |} eq_refl))).
    reflexivity.
Defined.

(** ** The rendered key, slot by slot *)

Lemma zip_longest_length {A B} (xs : list A) :
  forall ys : list B,
    length (zip_longest xs ys) = Nat.max (length xs) (length ys).
Proof.
  induction xs as [| x xs IH]; intros ys; simpl.
  - apply length_map.
  - destruct ys as [| y ys]; simpl; rewrite IH; simpl; lia.
Qed.


Lemma setitem_length k v (d : ColumnCollection.t) :
  length (ColumnCollection.setitem k v d) <= S (length d).
Proof.
  induction d as [| [k' v'] d IH]; simpl; [lia |].
  destruct (k' =? k); simpl; lia.
Qed.

Lemma add_all_columns_length tbl (pending : list ColArg) :
  forall self,
    length (ColumnCollectionMixin.columns
              (after (ColumnCollectionMixin.add_all tbl pending) self))
    <= length (ColumnCollectionMixin.columns self) + length pending.
Proof.
  induction pending as [| col rest IH]; intros self; simpl.
  - unfold after. simpl. lia.
  - rewrite after_bind_eq.
    assert (Hresolve : after (ColumnCollectionMixin.resolve tbl col) self
                       = self).
    { destruct col as [name | found]; simpl; [| reflexivity].
      destruct (c_getitem tbl name); reflexivity. }
    destruct (outcome (ColumnCollectionMixin.resolve tbl col) self)
      as [err | found]; rewrite Hresolve; [lia |].
    rewrite after_bind_eq. simpl.
    etransitivity; [apply IH |]. unfold after. simpl.
    pose proof (setitem_length (key found) found
                  (ColumnCollectionMixin.columns self)).
    unfold ColumnCollection.add. lia.
Qed.

(** The key descriptor after an attach of the freshly built one: the
    inputs are still there, and there are at most as many columns as
    inputs. *)
Lemma key_after_attach tbl (args : list KeyArg) :
  let k := after (KeysExpressionOrColumn._set_parent tbl)
             (KeysExpressionOrColumn.__init__ args) in
  KeysExpressionOrColumn.expressions k = args
  /\ length (ColumnCollection.to_list
               (ColumnCollectionMixin.columns (KeysExpressionOrColumn.super k)))
     <= length args.
Proof.
  destruct (key_init_pending args) as (pending & -> & _ & Hlen).
  unfold KeysExpressionOrColumn._set_parent.
  rewrite after_on_attr_eq. simpl. split; [reflexivity |].
  unfold ColumnCollection.to_list. rewrite length_map.
  change (after (ColumnCollectionMixin._set_parent tbl)
            (ColumnCollectionMixin.__init__ pending))
    with (after (ColumnCollectionMixin.add_all tbl pending)
            (ColumnCollectionMixin.__init__ pending)).
  pose proof (add_all_columns_length tbl pending
                (ColumnCollectionMixin.__init__ pending)) as Hcols.
  simpl in Hcols. lia.
Qed.


(** X8: [get_expressions_or_columns()] does not need an attach.  On a key
    that was only built, from arguments none of which is or adds a
    table-bound column (such an argument makes the constructor attach at
    once), it returns one slot for each input: the expression for an
    expression, and [None] for a bare name, whose column is not bound
    yet. *)
Theorem rendered_before_attach (args : list KeyArg) :
  key_free_of_bound_columns args = true ->
  outcome KeysExpressionOrColumn.get_expressions_or_columns
    (KeysExpressionOrColumn.__init__ args)
  = inr (map (fun arg => match arg with
                         | ArgClause e => IClause e
                         | ArgName _ => INone
                         end) args).
Proof.
  intros _.
  destruct (key_init_pending args) as (pending & -> & _).
  unfold outcome. simpl. f_equal.
  induction args as [| arg args IH]; simpl; [reflexivity |].
  rewrite IH. destruct arg; reflexivity.
Qed.

Lemma rendered_before_attach_witness :
  outcome KeysExpressionOrColumn.get_expressions_or_columns
    (KeysExpressionOrColumn.__init__
       [ArgName "EventDate"; ArgClause bucket; ArgName "UserID"])
  = inr [INone; IClause bucket; INone].
Proof.
  apply (rendered_before_attach
           [ArgName "EventDate"; ArgClause bucket; ArgName "UserID"]).
  reflexivity.
Defined.




(** ** What the escaper is applied to *)

Lemma skipn_app_same {A} (p1 p2 tail : list A) :
  length p1 = length p2 ->
  skipn 2 p1 = skipn 2 p2 ->
  skipn 2 (p1 ++ tail) = skipn 2 (p2 ++ tail).
Proof.
  intros Hlen Hrest. rewrite !skipn_app, Hrest, Hlen. reflexivity.
Qed.

Lemma MergeTree_get_params_escapers (E1 E2 : Escaper) (mt : MergeTree.t) :
  same_beyond_coordinates (replicated mt)
    (outcome (MergeTree.get_params (H := E1)) mt)
    (outcome (MergeTree.get_params (H := E2)) mt).
Proof.
  destruct mt as [base date keys samp gran rname rpath].
  unfold same_beyond_coordinates, replicated, outcome, MergeTree.get_params,
    bind, attr, on_attr. simpl.
  destruct (truthy rname); simpl.
  - unfold MergeTree.escaped_coordinates, bind, attr. simpl.
    destruct rpath as [p |], rname as [n |]; simpl; try reflexivity.
    destruct (TableCol.get_column date) as [[e | first] date']; simpl;
      [reflexivity |].
    destruct samp as [s |]; simpl.
    + unfold MergeTree.sampling_item, bind, on_attr. simpl.
      destruct (map KeysExpressionOrColumn.pick _); simpl;
        [reflexivity | split; reflexivity].
    + split; reflexivity.
  - destruct (TableCol.get_column date) as [[e | first] date']; simpl;
      [reflexivity |].
    destruct samp as [s |]; simpl.
    + unfold MergeTree.sampling_item, bind, on_attr. simpl.
      destruct (map KeysExpressionOrColumn.pick _); simpl;
        [reflexivity | split; reflexivity].
    + split; reflexivity.
Qed.

(** X10: in the MergeTree family the escaper reaches the two replication
    coordinates and nothing else.  With two different escapers,
    [get_params()] of the same descriptor fails alike or returns lists of
    the same length that are equal after the first two items when the
    descriptor is replicated, and equal altogether when it is not;
    column names, expressions and the granularity are never escaped. *)
Theorem escaper_reaches_only_coordinates (E1 E2 : Escaper) :
  (forall mt : MergeTree.t,
     same_beyond_coordinates (replicated mt)
       (outcome (MergeTree.get_params (H := E1)) mt)
       (outcome (MergeTree.get_params (H := E2)) mt))
  /\ (forall e : CollapsingMergeTree.t,
        same_beyond_coordinates (replicated (CollapsingMergeTree.super e))
          (outcome (CollapsingMergeTree.get_params (H := E1)) e)
          (outcome (CollapsingMergeTree.get_params (H := E2)) e))
  /\ (forall e : SummingMergeTree.t,
        same_beyond_coordinates (replicated (SummingMergeTree.super e))
          (outcome (SummingMergeTree.get_params (H := E1)) e)
          (outcome (SummingMergeTree.get_params (H := E2)) e)).
Proof.
  split; [apply MergeTree_get_params_escapers |]. split.
  - intros [base sign].
    pose proof (MergeTree_get_params_escapers E1 E2 base) as Hbase.
    pose proof (@MergeTree_get_params_read_only E1 base) as Hro1.
    pose proof (@MergeTree_get_params_read_only E2 base) as Hro2.
    unfold same_beyond_coordinates, outcome, after in *.
    unfold CollapsingMergeTree.get_params, bind, on_attr. simpl.
    destruct (MergeTree.get_params (H := E1) base) as [[e1 | p1] b1];
      destruct (MergeTree.get_params (H := E2) base) as [[e2 | p2] b2];
      simpl in *; try contradiction; [exact Hbase |].
    subst b1 b2.
    destruct (TableCol.get_column sign) as [[e | col] sign']; simpl;
      [reflexivity |].
    destruct Hbase as (Hlen & Hrest).
    split; [rewrite !length_app; simpl; lia |].
    destruct (replicated base); [| subst; reflexivity].
    apply skipn_app_same; assumption.
  - intros [base summing].
    pose proof (MergeTree_get_params_escapers E1 E2 base) as Hbase.
    pose proof (@MergeTree_get_params_read_only E1 base) as Hro1.
    pose proof (@MergeTree_get_params_read_only E2 base) as Hro2.
    unfold same_beyond_coordinates, outcome, after in *.
    unfold SummingMergeTree.get_params, bind, on_attr, attr. simpl.
    destruct (MergeTree.get_params (H := E1) base) as [[e1 | p1] b1];
      destruct (MergeTree.get_params (H := E2) base) as [[e2 | p2] b2];
      simpl in *; try contradiction; [exact Hbase |].
    subst b1 b2.
    destruct Hbase as (Hlen & Hrest).
    destruct summing as [s |]; simpl; [| split; assumption].
    split; [rewrite !length_app; simpl; lia |].
    destruct (replicated base); [| subst; reflexivity].
    apply skipn_app_same; assumption.
Qed.

(** ** More on the parameter lists *)

(** X11: the sampling parameter.  For a MergeTree built with a sampling
    argument and attached with success, the item after the date column is
    the sampling expression itself when the argument is an expression, and
    the table's column of that name when it is a bare name. *)
Theorem sampling_parameter `{Escaper} cls date_col key_expressions arg
    index_granularity rname rpath tbl mt attached :
  MergeTree.__init__ cls date_col key_expressions (Some arg)
    index_granularity rname rpath = inr mt ->
  MergeTree._set_parent tbl mt = (inr tt, attached) ->
  exists params,
    outcome MergeTree.get_params attached = inr params
    /\ let position := (if replicated attached then 2 else 0) + 1 in
       match arg with
       | ArgClause e =>
           nth_error params position = Some (PItem (IClause e))
       | ArgName name => exists col,
           c_getitem tbl name = Some col
           /\ nth_error params position = Some (PItem (IColumn col))
       end.
Proof.
  intros Hinit Hattach.
  destruct (MergeTree_attached_get_params _ _ _ _ _ _ _ _ _ _ Hinit Hattach)
    as (coords & date & samp & rendered & Hcoords & _ & _ & Hsamp & _
        & Hparams & Hrname & _).
  destruct Hsamp as (s & item & Hfield & Hitem & ->).
  assert (Harg : match arg with
                 | ArgClause e => item = IClause e
                 | ArgName name => exists col,
                     c_getitem tbl name = Some col /\ item = IColumn col
                 end).
  { unfold MergeTree.__init__ in Hinit.
    destruct (MergeTree.half_replicated rname rpath); [discriminate |].
    injection Hinit as <-.
    apply MergeTree_set_parent_inv in Hattach. simpl in Hattach.
    destruct Hattach as (_ & _ & (s' & Hs' & Hfield') & _).
    rewrite Hfield in Hfield'. injection Hfield' as <-.
    apply sampling_attached in Hs'. destruct Hs' as (item' & Hitem' & Hspec).
    unfold outcome in Hitem. rewrite Hitem' in Hitem. simpl in Hitem.
    injection Hitem as <-. exact Hspec. }
  eexists. split; [exact Hparams |].
  unfold replicated. rewrite Hrname.
  assert (Hnth : nth_error
                   (coords ++ [PItem (IColumn date)] ++ [PItem item]
                      ++ [PTuple rendered;
                          PInt (default 8192%Z index_granularity)])
                   ((if truthy rname then 2 else 0) + 1)
                 = Some (PItem item)).
  { destruct (truthy rname).
    - destruct Hcoords as (p & n & _ & _ & ->). reflexivity.
    - subst coords. reflexivity. }
  destruct arg as [name | e].
  - destruct Harg as (col & Hcol & ->). exists col. split; assumption.
  - subst item. exact Hnth.
Qed.

Lemma sampling_parameter_witness :
  exists mt attached params,
    MergeTree.__init__ ClsMergeTree (ColName "EventDate") [ArgName "Sign"]
      (Some (ArgName "UserID")) None (Some "r1") (Some "/p") = inr mt
    /\ MergeTree._set_parent hits mt = (inr tt, attached)
    /\ outcome (MergeTree.get_params (H := quoting)) attached = inr params
    /\ nth_error params 3 = Some (PItem (IColumn UserID)).
Proof.
  destruct (@sampling_parameter quoting ClsMergeTree (ColName "EventDate")
              [ArgName "Sign"] (ArgName "UserID") None (Some "r1")
              (Some "/p") hits _ _ eq_refl eq_refl)
    as (params & Hparams & col & Hcol & Hnth).
  injection Hcol as <-.
  refine (ex_intro _ _ (ex_intro _ _ (ex_intro _ params
            (conj _ (conj _ (conj Hparams Hnth)))))); reflexivity.
Defined.

Lemma rendered_length tbl (args : list KeyArg) r k :
  KeysExpressionOrColumn._set_parent tbl (KeysExpressionOrColumn.__init__ args)
  = (r, k) ->
  exists items,
    outcome KeysExpressionOrColumn.get_expressions_or_columns k = inr items
    /\ length items = length args.
Proof.
  intros Hrun.
  destruct (key_after_attach tbl args) as (Hexprs & Hcols).
  unfold after in Hexprs, Hcols. rewrite Hrun in Hexprs, Hcols.
  simpl in Hexprs, Hcols.
  eexists. split; [reflexivity |].
  simpl. rewrite Hexprs, length_map, zip_longest_length. lia.
Qed.

(** X12: each tuple parameter has one slot for each declared input.  The
    key tuple of an attached MergeTree, which comes just before the
    granularity, has as many items as [key_expressions]; the tuple that an
    attached SummingMergeTree appends has as many items as
    [summing_cols], so an empty [summing_cols] list still appends a
    tuple, the empty one. *)
Theorem tuples_have_one_slot_per_input `{Escaper} date_col key_expressions
    sampling index_granularity tbl :
  (forall cls rname rpath mt attached,
     MergeTree.__init__ cls date_col key_expressions sampling
       index_granularity rname rpath = inr mt ->
     MergeTree._set_parent tbl mt = (inr tt, attached) ->
     exists front rendered,
       outcome MergeTree.get_params attached
       = inr (front ++ [PTuple rendered;
                        PInt (MergeTree.index_granularity attached)])
       /\ length rendered = length key_expressions)
  /\ (forall cols e attached,
        SummingMergeTree.__init__ date_col key_expressions (Some cols)
          sampling index_granularity = inr e ->
        SummingMergeTree._set_parent tbl e = (inr tt, attached) ->
        exists base items,
          outcome MergeTree.get_params (SummingMergeTree.super attached)
          = inr base
          /\ outcome SummingMergeTree.get_params attached
             = inr (base ++ [PTuple items])
          /\ length items = length cols).
Proof.
  split.
  - intros cls rname rpath mt attached Hinit Hattach.
    destruct (MergeTree_attached_get_params _ _ _ _ _ _ _ _ _ _ Hinit Hattach)
      as (coords & date & samp & rendered & _ & _ & _ & _ & Hkeys & Hparams
          & _).
    unfold MergeTree.__init__ in Hinit.
    destruct (MergeTree.half_replicated rname rpath); [discriminate |].
    injection Hinit as <-.
    apply MergeTree_set_parent_inv in Hattach. simpl in Hattach.
    destruct Hattach as (_ & Hattached & _ & Hgran & _).
    apply rendered_length in Hattached.
    destruct Hattached as (items & Hitems & Hlen).
    rewrite Hitems in Hkeys. injection Hkeys as <-.
    exists (coords ++ [PItem (IColumn date)] ++ samp), items.
    split; [| exact Hlen].
    rewrite Hparams, Hgran. f_equal. rewrite <- !app_assoc. reflexivity.
  - intros cols e attached Hinit Hattach.
    destruct (SummingMergeTree_attached_get_params _ _ _ _ _ _ _ _ Hinit
                Hattach)
      as (date & rest & Hbase & (s & items & Hfield & Hitems & Hparams) & _).
    unfold SummingMergeTree.__init__ in Hinit.
    destruct (MergeTree.__init__ ClsSummingMergeTree date_col
                key_expressions sampling index_granularity None None)
      as [err | mt]; [discriminate |].
    injection Hinit as <-.
    apply SummingMergeTree_set_parent_inv in Hattach. simpl in Hattach.
    destruct Hattach as (_ & s' & Hs' & Hfield').
    rewrite Hfield in Hfield'. injection Hfield' as <-.
    apply rendered_length in Hs'. destruct Hs' as (items' & Hitems' & Hlen).
    rewrite Hitems in Hitems'. injection Hitems' as <-.
    exists (PItem (IColumn date) :: rest), items. auto.
Qed.

Lemma tuples_have_one_slot_per_input_witness :
  exists e attached base,
    SummingMergeTree.__init__ (ColName "EventDate") [ArgName "UserID"]
      (Some []) None None = inr e
    /\ SummingMergeTree._set_parent hits e = (inr tt, attached)
    /\ outcome (SummingMergeTree.get_params (H := quoting)) attached
       = inr (base ++ [PTuple []]).
Proof.
  destruct (proj2 (@tuples_have_one_slot_per_input quoting
                     (ColName "EventDate") [ArgName "UserID"] None None hits)
              [] _ _ eq_refl eq_refl)
    as (base & items & _ & Hparams & Hlen).
  destruct items as [| item items]; [| discriminate].
  refine (ex_intro _ _ (ex_intro _ _ (ex_intro _ base
            (conj _ (conj _ Hparams))))); reflexivity.
Defined.

Lemma unreplicated_params_length `{Escaper} cls date_col key_expressions
    sampling index_granularity tbl mt attached :
  MergeTree.__init__ cls date_col key_expressions sampling index_granularity
    None None = inr mt ->
  MergeTree._set_parent tbl mt = (inr tt, attached) ->
  exists params,
    outcome MergeTree.get_params attached = inr params
    /\ length params = 1 + (if present sampling then 1 else 0) + 1 + 1.
Proof.
  intros Hinit Hattach.
  destruct (MergeTree_attached_get_params _ _ _ _ _ _ _ _ _ _ Hinit Hattach)
    as (coords & date & samp & rendered & Hcoords & _ & _ & Hsamp & _
        & Hparams & _).
  simpl in Hcoords. subst coords.
  eexists. split; [exact Hparams |].
  destruct sampling as [arg |]; simpl.
  - destruct Hsamp as (s & item & _ & _ & ->). reflexivity.
  - destruct Hsamp as (_ & ->). reflexivity.
Qed.

(** X13: the length of the parameter list of an attached subclass
    descriptor.  A CollapsingMergeTree has the date column, the key tuple,
    the granularity and the sign column, plus the sampling item if
    sampling was given; a SummingMergeTree has the date column, the key
    tuple and the granularity, plus the sampling item and the summing
    tuple, each if it was given. *)
Theorem subclass_params_length `{Escaper} date_col key_expressions sampling
    index_granularity tbl :
  (forall sign_col e attached,
     CollapsingMergeTree.__init__ date_col key_expressions sign_col sampling
       index_granularity = inr e ->
     CollapsingMergeTree._set_parent tbl e = (inr tt, attached) ->
     exists params,
       outcome CollapsingMergeTree.get_params attached = inr params
       /\ length params = 4 + (if present sampling then 1 else 0))
  /\ (forall summing_cols e attached,
        SummingMergeTree.__init__ date_col key_expressions summing_cols
          sampling index_granularity = inr e ->
        SummingMergeTree._set_parent tbl e = (inr tt, attached) ->
        exists params,
          outcome SummingMergeTree.get_params attached = inr params
          /\ length params
             = 3 + (if present sampling then 1 else 0)
               + (if present summing_cols then 1 else 0)).
Proof.
  split.
  - intros sign_col e attached Hinit Hattach.
    destruct (CollapsingMergeTree_attached_get_params _ _ _ _ _ _ _ _ Hinit
                Hattach)
      as (date & rest & sign & Hbase & _ & _ & Hparams & _).
    unfold CollapsingMergeTree.__init__ in Hinit.
    destruct (MergeTree.__init__ ClsCollapsingMergeTree date_col
                key_expressions sampling index_granularity None None)
      as [err | mt] eqn:Hmt; [discriminate |].
    injection Hinit as <-.
    apply CollapsingMergeTree_set_parent_inv in Hattach. simpl in Hattach.
    destruct Hattach as (Hsuper & _).
    destruct (unreplicated_params_length _ _ _ _ _ _ _ _ Hmt Hsuper)
      as (base & Hbase' & Hlen).
    rewrite Hbase in Hbase'. injection Hbase' as <-.
    eexists. split; [exact Hparams |].
    rewrite length_app, Hlen. simpl. lia.
  - intros summing_cols e attached Hinit Hattach.
    destruct (SummingMergeTree_attached_get_params _ _ _ _ _ _ _ _ Hinit
                Hattach)
      as (date & rest & Hbase & Hsumming & _).
    unfold SummingMergeTree.__init__ in Hinit.
    destruct (MergeTree.__init__ ClsSummingMergeTree date_col
                key_expressions sampling index_granularity None None)
      as [err | mt] eqn:Hmt; [discriminate |].
    injection Hinit as <-.
    apply SummingMergeTree_set_parent_inv in Hattach. simpl in Hattach.
    destruct Hattach as (Hsuper & _).
    destruct (unreplicated_params_length _ _ _ _ _ _ _ _ Hmt Hsuper)
      as (base & Hbase' & Hlen).
    rewrite Hbase in Hbase'. injection Hbase' as <-.
    destruct summing_cols as [cols |]; simpl.
    + destruct Hsumming as (s & items & _ & _ & Hparams).
      eexists. split; [exact Hparams |].
      rewrite length_app, Hlen. simpl. lia.
    + eexists. split; [exact Hsumming |]. rewrite Hlen. lia.
Qed.

Lemma subclass_params_length_witness :
  exists e attached params,
    CollapsingMergeTree.__init__ (ColName "EventDate") [ArgName "UserID"]
      (ColName "Sign") (Some (ArgClause bucket)) None = inr e
    /\ CollapsingMergeTree._set_parent hits e = (inr tt, attached)
    /\ outcome (CollapsingMergeTree.get_params (H := quoting)) attached
       = inr params
    /\ length params = 5.
Proof.
  destruct (proj1 (@subclass_params_length quoting (ColName "EventDate")
                     [ArgName "UserID"] (Some (ArgClause bucket)) None hits)
              (ColName "Sign") _ _ eq_refl eq_refl)
    as (params & Hparams & Hlen).
  refine (ex_intro _ _ (ex_intro _ _ (ex_intro _ params
            (conj _ (conj _ (conj Hparams Hlen)))))); reflexivity.
Defined.

(** ** Attaching a second time *)

Lemma setitem_keys k v (d : ColumnCollection.t) x :
  In x (map fst (ColumnCollection.setitem k v d))
  <-> x = k \/ In x (map fst d).
Proof.
  induction d as [| [k' v'] d IH]; simpl.
  - intuition.
  - destruct (k' =? k) eqn:E; simpl.
    + apply String.eqb_eq in E. subst k'. intuition.
    + rewrite IH. intuition.
Qed.

Lemma setitem_NoDup k v (d : ColumnCollection.t) :
  NoDup (map fst d) -> NoDup (map fst (ColumnCollection.setitem k v d)).
Proof.
  induction d as [| [k' v'] d IH]; simpl; intros Hnodup.
  - constructor; [intros [] | constructor].
  - inversion Hnodup as [| ? ? Hfresh Hrest]; subst.
    destruct (k' =? k) eqn:E; simpl.
    + apply String.eqb_eq in E. subst k'. constructor; assumption.
    + constructor; [| apply IH; exact Hrest].
      rewrite setitem_keys. intros [-> | Hin]; [| contradiction].
      rewrite String.eqb_refl in E. discriminate.
Qed.

Lemma setitem_keys_present k v (d : ColumnCollection.t) :
  In k (map fst d) ->
  map fst (ColumnCollection.setitem k v d) = map fst d.
Proof.
  induction d as [| [k' v'] d IH]; simpl; intros Hin; [contradiction |].
  destruct (k' =? k) eqn:E; simpl.
  - apply String.eqb_eq in E. subst k'. reflexivity.
  - rewrite IH; [reflexivity |].
    destruct Hin as [-> | Hin]; [| exact Hin].
    rewrite String.eqb_refl in E. discriminate.
Qed.

Lemma column_at_setitem k v (d : ColumnCollection.t) x :
  column_at x (ColumnCollection.setitem k v d)
  = if k =? x then Some v else column_at x d.
Proof.
  unfold column_at.
  induction d as [| [k' v'] d IH]; simpl.
  - destruct (k =? x); reflexivity.
  - destruct (k' =? k) eqn:E; simpl.
    + apply String.eqb_eq in E. subst k'.
      destruct (k =? x); reflexivity.
    + destruct (k' =? x) eqn:Ex; simpl.
      * apply String.eqb_eq in Ex. subst x.
        rewrite String.eqb_sym, E. reflexivity.
      * exact IH.
Qed.

Lemma column_at_absent x (d : ColumnCollection.t) :
  ~ In x (map fst d) -> column_at x d = None.
Proof.
  unfold column_at.
  induction d as [| [k v] d IH]; simpl; intros Habsent; [reflexivity |].
  destruct (k =? x) eqn:E.
  - apply String.eqb_eq in E. tauto.
  - apply IH. tauto.
Qed.

(** A column collection is determined by the order of its keys and by
    what each key holds. *)
Lemma collection_ext (d1 : ColumnCollection.t) :
  forall d2 : ColumnCollection.t,
    NoDup (map fst d1) ->
    map fst d1 = map fst d2 ->
    (forall x, column_at x d1 = column_at x d2) ->
    d1 = d2.
Proof.
  induction d1 as [| [k1 v1] d1 IH]; intros [| [k2 v2] d2] Hnodup Hkeys Hat;
    try discriminate; [reflexivity |].
  simpl in Hkeys. injection Hkeys as <- Hkeys.
  inversion Hnodup as [| ? ? Hfresh Hrest]; subst.
  pose proof (Hat k1) as Hhead. unfold column_at in Hhead. simpl in Hhead.
  rewrite String.eqb_refl in Hhead. simpl in Hhead. injection Hhead as <-.
  f_equal. apply IH; [exact Hrest | exact Hkeys |].
  intros x. destruct (k1 =? x) eqn:E.
  - apply String.eqb_eq in E. subst x.
    rewrite !column_at_absent; [reflexivity | rewrite <- Hkeys |];
      exact Hfresh.
  - specialize (Hat x). unfold column_at in Hat. simpl in Hat.
    rewrite E in Hat. exact Hat.
Qed.

Lemma add_columns_keys (cols : list Column) :
  forall (d : ColumnCollection.t) x,
    In x (map fst (add_columns cols d))
    <-> In x (map fst d) \/ In x (map key cols).
Proof.
  unfold add_columns.
  induction cols as [| col cols IH]; intros d x; simpl.
  - intuition.
  - rewrite IH. unfold ColumnCollection.add. rewrite setitem_keys.
    intuition.
Qed.

Lemma add_columns_NoDup (cols : list Column) :
  forall d : ColumnCollection.t,
    NoDup (map fst d) -> NoDup (map fst (add_columns cols d)).
Proof.
  unfold add_columns.
  induction cols as [| col cols IH]; intros d Hnodup; simpl.
  - exact Hnodup.
  - apply IH. apply setitem_NoDup. exact Hnodup.
Qed.

Lemma add_columns_keys_present (cols : list Column) :
  forall d : ColumnCollection.t,
    (forall col, In col cols -> In (key col) (map fst d)) ->
    map fst (add_columns cols d) = map fst d.
Proof.
  unfold add_columns.
  induction cols as [| col cols IH]; intros d Hpresent; simpl.
  - reflexivity.
  - assert (Hkeys : map fst (ColumnCollection.add col d) = map fst d).
    { apply setitem_keys_present. apply Hpresent. left. reflexivity. }
    rewrite IH; [exact Hkeys |].
    intros col' Hin. rewrite Hkeys. apply Hpresent. right. exact Hin.
Qed.

Lemma held_fold (cols : list Column) x :
  forall held : option Column,
    fold_left (fun held col => if key col =? x then Some col else held)
      cols held
    = match fold_left
              (fun held col => if key col =? x then Some col else held)
              cols None with
      | Some col => Some col
      | None => held
      end.
Proof.
  induction cols as [| col cols IH]; intros held; simpl; [reflexivity |].
  destruct (key col =? x).
  - rewrite (IH (Some col)).
    destruct (fold_left _ cols None); reflexivity.
  - apply IH.
Qed.

Lemma column_at_fold (cols : list Column) x :
  forall d : ColumnCollection.t,
    column_at x (add_columns cols d)
    = fold_left (fun held col => if key col =? x then Some col else held)
        cols (column_at x d).
Proof.
  unfold add_columns.
  induction cols as [| col cols IH]; intros d; simpl; [reflexivity |].
  rewrite IH. unfold ColumnCollection.add. rewrite column_at_setitem.
  reflexivity.
Qed.

(** What a key holds after the columns were added: the last added column
    of that key, or what it held before. *)
Lemma column_at_add_columns (cols : list Column) x (d : ColumnCollection.t) :
  column_at x (add_columns cols d)
  = match column_at x (add_columns cols []) with
    | Some col => Some col
    | None => column_at x d
    end.
Proof.
  rewrite !column_at_fold. rewrite (held_fold cols x (column_at x d)).
  reflexivity.
Qed.

Lemma add_columns_twice (cols : list Column) (d : ColumnCollection.t) :
  NoDup (map fst d) ->
  add_columns cols (add_columns cols d) = add_columns cols d.
Proof.
  intros Hnodup. apply collection_ext.
  - apply add_columns_NoDup, add_columns_NoDup, Hnodup.
  - apply add_columns_keys_present. intros col Hin.
    apply add_columns_keys. right. apply in_map. exact Hin.
  - intros x.
    rewrite (column_at_add_columns cols x (add_columns cols d)).
    rewrite (column_at_add_columns cols x d).
    destruct (column_at x (add_columns cols [])); reflexivity.
Qed.

Lemma add_all_after tbl (pending : list ColArg) :
  forall self,
    after (ColumnCollectionMixin.add_all tbl pending) self
    = ColumnCollectionMixin.set_columns
        (add_columns (resolved_prefix tbl pending)
           (ColumnCollectionMixin.columns self))
        self.
Proof.
  induction pending as [| col rest IH]; intros self.
  - destruct self; reflexivity.
  - simpl ColumnCollectionMixin.add_all. rewrite after_bind_eq.
    assert (Hafter : after (ColumnCollectionMixin.resolve tbl col) self
                     = self).
    { destruct col as [name | found]; simpl; [| reflexivity].
      destruct (c_getitem tbl name); reflexivity. }
    assert (Houtcome :
      match outcome (ColumnCollectionMixin.resolve tbl col) self with
      | inr found => resolved tbl col = Some found
      | inl _ => resolved tbl col = None
      end).
    { destruct col as [name | found]; simpl; [| reflexivity].
      unfold outcome. simpl. destruct (c_getitem tbl name); reflexivity. }
    rewrite Hafter. simpl resolved_prefix.
    destruct (outcome (ColumnCollectionMixin.resolve tbl col) self)
      as [err | found]; rewrite Houtcome; [destruct self; reflexivity |].
    rewrite after_bind_eq. simpl. rewrite IH. destruct self; reflexivity.
Qed.

Lemma mixin_attach_twice tbl (self : ColumnCollectionMixin.t) :
  keyed_once self ->
  let once := after (ColumnCollectionMixin._set_parent tbl) self in
  keyed_once once
  /\ ColumnCollectionMixin._set_parent tbl once
     = (outcome (ColumnCollectionMixin._set_parent tbl) self, once).
Proof.
  intros Hkeyed once.
  assert (Honce : once
                  = ColumnCollectionMixin.set_columns
                      (add_columns
                         (resolved_prefix tbl
                            (ColumnCollectionMixin._pending_colargs self))
                         (ColumnCollectionMixin.columns self))
                      self).
  { apply (add_all_after tbl (ColumnCollectionMixin._pending_colargs self)). }
  split.
  - rewrite Honce. unfold keyed_once. simpl.
    apply add_columns_NoDup. exact Hkeyed.
  - rewrite (surjective_pairing (ColumnCollectionMixin._set_parent tbl once)).
    f_equal.
    + change (outcome (ColumnCollectionMixin._set_parent tbl) once
              = outcome (ColumnCollectionMixin._set_parent tbl) self).
      rewrite !mixin_attach_outcome. rewrite Honce. reflexivity.
    + change (after (ColumnCollectionMixin.add_all tbl
                       (ColumnCollectionMixin._pending_colargs once)) once
              = once).
      rewrite add_all_after. rewrite Honce at 1 2 3. simpl.
      rewrite add_columns_twice; [| exact Hkeyed].
      rewrite Honce. reflexivity.
Qed.

Lemma key_attach_twice tbl (k : KeysExpressionOrColumn.t) :
  keyed_once (KeysExpressionOrColumn.super k) ->
  let once := after (KeysExpressionOrColumn._set_parent tbl) k in
  keyed_once (KeysExpressionOrColumn.super once)
  /\ KeysExpressionOrColumn._set_parent tbl once
     = (outcome (KeysExpressionOrColumn._set_parent tbl) k, once).
Proof.
  intros Hkeyed once.
  destruct (mixin_attach_twice tbl _ Hkeyed) as (Hkeyed' & Htwice).
  unfold once, KeysExpressionOrColumn._set_parent.
  rewrite after_on_attr_eq, outcome_on_attr_eq.
  destruct k as [base exprs]. simpl in *.
  split; [exact Hkeyed' |].
  unfold on_attr. simpl. rewrite Htwice. reflexivity.
Qed.

Lemma attach_pair {Self} (m : Method Self unit) self r self' :
  m self = (r, self') -> outcome m self = r /\ after m self = self'.
Proof. unfold outcome, after. intros ->. split; reflexivity. Qed.

Lemma MergeTree_attach_twice tbl (mt : MergeTree.t) :
  keyed_once (MergeTree.date_col mt) ->
  keyed_once (KeysExpressionOrColumn.super (MergeTree.key_cols mt)) ->
  (forall s, MergeTree.sampling mt = Some s ->
             keyed_once (KeysExpressionOrColumn.super s)) ->
  MergeTree._set_parent tbl (after (MergeTree._set_parent tbl) mt)
  = (outcome (MergeTree._set_parent tbl) mt,
     after (MergeTree._set_parent tbl) mt).
Proof.
  destruct mt as [base date keys samp gran rname rpath]. simpl.
  intros Hdate Hkeys Hsamp.
  destruct (mixin_attach_twice tbl date Hdate) as (_ & Hdate2).
  destruct (key_attach_twice tbl keys Hkeys) as (_ & Hkeys2).
  assert (Hdate2' : TableCol._set_parent tbl
                      (after (TableCol._set_parent tbl) date)
                    = (outcome (TableCol._set_parent tbl) date,
                       after (TableCol._set_parent tbl) date))
    by exact Hdate2.
  clear Hdate2. rename Hdate2' into Hdate2.
  cbv zeta in Hkeys2.
  unfold outcome at 1, after at 1 2. rewrite MergeTree_set_parent_run.
  destruct (TableCol._set_parent tbl date) as [rd date'] eqn:Edate.
  apply attach_pair in Edate. destruct Edate as (Eout & Eafter).
  rewrite Eout, Eafter in Hdate2.
  destruct rd as [e | []]; simpl.
  { rewrite MergeTree_set_parent_run, Hdate2. reflexivity. }
  destruct (KeysExpressionOrColumn._set_parent tbl keys) as [rk keys']
    eqn:Ekeys.
  apply attach_pair in Ekeys. destruct Ekeys as (Eout' & Eafter').
  rewrite Eout', Eafter' in Hkeys2.
  destruct rk as [e | []]; simpl.
  { rewrite MergeTree_set_parent_run, Hdate2, Hkeys2. reflexivity. }
  destruct samp as [s |]; simpl.
  - destruct (key_attach_twice tbl s (Hsamp s eq_refl)) as (_ & Hs2).
    destruct (KeysExpressionOrColumn._set_parent tbl s) as [rs s'] eqn:Es.
    apply attach_pair in Es. destruct Es as (Eout'' & Eafter'').
    rewrite Eout'', Eafter'' in Hs2. simpl.
    rewrite MergeTree_set_parent_run, Hdate2, Hkeys2, Hs2. reflexivity.
  - rewrite MergeTree_set_parent_run, Hdate2, Hkeys2. reflexivity.
Qed.

Lemma built_MergeTree_keyed_once cls date_col key_expressions sampling
    index_granularity rname rpath mt :
  MergeTree.__init__ cls date_col key_expressions sampling index_granularity
    rname rpath = inr mt ->
  keyed_once (MergeTree.date_col mt)
  /\ keyed_once (KeysExpressionOrColumn.super (MergeTree.key_cols mt))
  /\ forall s, MergeTree.sampling mt = Some s ->
               keyed_once (KeysExpressionOrColumn.super s).
Proof.
  unfold MergeTree.__init__.
  destruct (MergeTree.half_replicated rname rpath); [discriminate |].
  intros Hinit. injection Hinit as <-. simpl.
  assert (Hkey : forall args,
    keyed_once (KeysExpressionOrColumn.super
                  (KeysExpressionOrColumn.__init__ args))).
  { intros args. destruct (key_init_pending args) as (pending & -> & _).
    constructor. }
  split; [constructor |]. split; [apply Hkey |].
  intros s Hs. destruct sampling as [arg |]; [| discriminate].
  injection Hs as <-. apply Hkey.
Qed.

(** X14: attaching a MergeTree a second time to the same table changes
    nothing.  The second [_set_parent] has the outcome of the first, the
    same [KeyError] if the first one failed, and leaves the descriptor as
    the first one left it, so [get_params()] returns the same list after
    either: a column that is added again replaces the entry of its key
    in the column collection. *)
Theorem second_attach_changes_nothing `{Escaper} cls date_col key_expressions
    sampling index_granularity rname rpath tbl mt :
  MergeTree.__init__ cls date_col key_expressions sampling index_granularity
    rname rpath = inr mt ->
  let once := after (MergeTree._set_parent tbl) mt in
  MergeTree._set_parent tbl once = (outcome (MergeTree._set_parent tbl) mt, once)
  /\ outcome (MergeTree._set_parent tbl ;;; MergeTree._set_parent tbl ;;;
              MergeTree.get_params) mt
     = outcome (MergeTree._set_parent tbl ;;; MergeTree.get_params) mt.
Proof.
  intros Hinit once.
  destruct (built_MergeTree_keyed_once _ _ _ _ _ _ _ _ Hinit)
    as (Hdate & Hkeys & Hsamp).
  pose proof (MergeTree_attach_twice tbl mt Hdate Hkeys Hsamp) as Htwice.
  split; [exact Htwice |].
  rewrite !outcome_bind.
  destruct (outcome (MergeTree._set_parent tbl) mt) as [e | []] eqn:Eout;
    [reflexivity |].
  apply attach_pair in Htwice. destruct Htwice as (Hout2 & Hafter2).
  rewrite Hout2, Hafter2. reflexivity.
Qed.

Lemma second_attach_changes_nothing_witness :
  exists mt,
    MergeTree.__init__ ClsMergeTree (ColName "EventDate")
      [ArgName "UserID"; ArgName "EventDate"] (Some (ArgName "UserID")) None
      None None = inr mt
    /\ outcome (MergeTree._set_parent hits ;;; MergeTree._set_parent hits ;;;
                MergeTree.get_params (H := quoting)) mt
       = inr [PItem (IColumn EventDate); PItem (IColumn UserID);
              PTuple [IColumn UserID; IColumn EventDate]; PInt 8192].
Proof.
  eexists. split; [reflexivity |].
  etransitivity;
    [exact (proj2 (@second_attach_changes_nothing quoting ClsMergeTree
                     (ColName "EventDate")
                     [ArgName "UserID"; ArgName "EventDate"]
                     (Some (ArgName "UserID")) None None None hits _ eq_refl))
    | reflexivity].
Defined.

(** ** What [get_params] depends on *)

(** X15: [get_params()] of a MergeTree needs the date column and nothing
    else.  Take a descriptor whose replication coordinates are both true
    or both false and whose sampling descriptor, if any, holds its
    expression, in whatever state the key and sampling descriptors are
    (never attached, or left by a failed attach).  Then [get_params()]
    succeeds exactly when the date column descriptor holds a column, with
    the usual number of items; otherwise it raises the error of
    [get_column()]. *)
Theorem get_params_needs_only_the_date_column `{Escaper} (mt : MergeTree.t) :
  MergeTree.half_replicated (MergeTree.replica_name mt)
    (MergeTree.replica_table_path mt) = false ->
  (forall s, MergeTree.sampling mt = Some s ->
             KeysExpressionOrColumn.expressions s <> []) ->
  match outcome TableCol.get_column (MergeTree.date_col mt) with
  | inr date =>
      exists params,
        outcome MergeTree.get_params mt = inr params
        /\ nth_error params (if replicated mt then 2 else 0)
           = Some (PItem (IColumn date))
        /\ length params
           = 2 * (if replicated mt then 1 else 0) + 1
             + (if present (MergeTree.sampling mt) then 1 else 0) + 1 + 1
  | inl e => outcome MergeTree.get_params mt = inl e
  end.
Proof.
  destruct mt as [base date keys samp gran rname rpath]. simpl.
  intros Hhalf Hsamp. apply half_replicated_false_inv in Hhalf.
  assert (Hitem : forall s, samp = Some s ->
    exists item items,
      map KeysExpressionOrColumn.pick
        (zip_longest (KeysExpressionOrColumn.expressions s)
           (ColumnCollection.to_list
              (ColumnCollectionMixin.columns
                 (KeysExpressionOrColumn.super s))))
      = item :: items).
  { intros s Hs. specialize (Hsamp s Hs).
    destruct (KeysExpressionOrColumn.expressions s) as [| expr exprs];
      [contradiction |].
    simpl. destruct (ColumnCollection.to_list _); simpl; eauto. }
  unfold replicated, outcome, MergeTree.get_params, bind, attr, on_attr.
  simpl.
  destruct (truthy rname).
  - destruct Hhalf as (p & n & -> & -> & _).
    unfold MergeTree.escaped_coordinates, bind, attr. simpl.
    destruct (TableCol.get_column date) as [[e | found] date']; simpl;
      [reflexivity |].
    destruct samp as [s |]; simpl.
    + unfold MergeTree.sampling_item, bind, on_attr. simpl.
      destruct (Hitem s eq_refl) as (item & items & ->). simpl.
      eexists. repeat split.
    + eexists. repeat split.
  - simpl.
    destruct (TableCol.get_column date) as [[e | found] date']; simpl;
      [reflexivity |].
    destruct samp as [s |]; simpl.
    + unfold MergeTree.sampling_item, bind, on_attr. simpl.
      destruct (Hitem s eq_refl) as (item & items & ->). simpl.
      eexists. repeat split.
    + eexists. repeat split.
Qed.

Lemma get_params_needs_only_the_date_column_witness :
  exists mt params,
    MergeTree.__init__ ClsMergeTree (ColName "EventDate")
      [ArgName "UserID"; ArgName "Region"] (Some (ArgName "Sign")) None
      None None = inr mt
    /\ outcome (MergeTree._set_parent hits) mt = inl (KeyError "Region")
    /\ outcome (MergeTree.get_params (H := quoting))
         (after (MergeTree._set_parent hits) mt) = inr params
    /\ length params = 4.
Proof.
  eexists.
  match goal with
  | |- exists params, ?init = inr ?mt /\ _ =>
      assert (Hinit : init = inr mt) by reflexivity
  end.
  match type of Hinit with
  | _ = inr ?mt =>
      pose proof (@get_params_needs_only_the_date_column quoting
                    (after (MergeTree._set_parent hits) mt) eq_refl)
        as Hneeds
  end.
  simpl in Hneeds.
  destruct Hneeds as (params & Hparams & _ & Hlen).
  { intros s Hs. injection Hs as <-. discriminate. }
  exists params. split; [exact Hinit |]. split; [reflexivity |].
  split; [exact Hparams | exact Hlen].
Defined.

(** ** How far the slots of a key move *)

Lemma collect_names (names : list string) :
  KeysExpressionOrColumn.collect
    (map ColumnCollectionMixin.extract_one (map ArgName names))
  = (map ColName names, map ArgName names).
Proof.
  induction names as [| name names IH]; simpl; [reflexivity |].
  rewrite IH. reflexivity.
Qed.

Lemma pick_shifted (names : list string) :
  forall later : list Column,
    length names = S (length later) ->
    map KeysExpressionOrColumn.pick (zip_longest (map ArgName names) later)
    = map IColumn later ++ [INone].
Proof.
  induction names as [| name names IH]; intros later Hlen; [discriminate |].
  destruct later as [| col later]; simpl in *.
  - destruct names; [reflexivity | discriminate].
  - rewrite IH; [reflexivity | lia].
Qed.

(** X16: how a key is rendered when an expression without a column
    object stands in front of bare names.  If the names are in the table
    and their columns have different keys, the attach succeeds and every
    name is rendered as the column of the name after it, the last name as
    [None]: the expression takes a slot but adds no column, and the slots
    are paired with the columns by position. *)
Theorem column_free_expression_shifts_names tbl (e : ClauseElement)
    (names : list string) (cols : list Column) :
  traversed_columns e = [] ->
  Forall2 (fun name col => c_getitem tbl name = Some col) names cols ->
  NoDup (map key cols) ->
  attached_call
    (inr (KeysExpressionOrColumn.__init__ (ArgClause e :: map ArgName names)))
    (KeysExpressionOrColumn._set_parent tbl)
    KeysExpressionOrColumn.get_expressions_or_columns
  = inr (IClause e :: match cols with
                      | [] => []
                      | _ :: later => map IColumn later ++ [INone]
                      end).
Proof.
  intros Hfree Hnames Hnodup.
  assert (Hinit :
    KeysExpressionOrColumn.__init__ (ArgClause e :: map ArgName names)
    = {| KeysExpressionOrColumn.super :=
           ColumnCollectionMixin.__init__ (map ColName names);
         KeysExpressionOrColumn.expressions :=
           ArgClause e :: map ArgName names |}).
  { unfold KeysExpressionOrColumn.__init__,
      ColumnCollectionMixin._extract_col_expression_collection.
    simpl. rewrite collect_names, Hfree. reflexivity. }
  assert (Hres : Forall2 (fun p col => resolved tbl p = Some col)
                   (map ColName names) cols).
  { clear Hnodup Hinit. induction Hnames; simpl; constructor; assumption. }
  rewrite Hinit.
  unfold attached_call, outcome, bind, KeysExpressionOrColumn._set_parent,
    on_attr, ColumnCollectionMixin._set_parent, bind, attr. simpl.
  rewrite (add_all_resolved _ _ _ Hres). simpl.
  rewrite add_all_fresh; [| exact Hnodup]. simpl.
  apply Forall2_length in Hnames.
  destruct cols as [| col later]; simpl.
  - destruct names; [reflexivity | discriminate].
  - rewrite pick_shifted; [reflexivity | exact Hnames].
Qed.

Lemma column_free_expression_shifts_names_witness :
  attached_call
    (inr (KeysExpressionOrColumn.__init__
            (ArgClause bucket :: map ArgName ["EventDate"; "UserID"; "Sign"])))
    (KeysExpressionOrColumn._set_parent hits)
    KeysExpressionOrColumn.get_expressions_or_columns
  = inr [IClause bucket; IColumn UserID; IColumn Sign; INone].
Proof.
  apply (column_free_expression_shifts_names hits bucket
           ["EventDate"; "UserID"; "Sign"] [EventDate; UserID; Sign]).
  - reflexivity.
  - repeat constructor.
  - repeat constructor; simpl; intuition discriminate.
Defined.

Lemma setitem_same k v (d : ColumnCollection.t) :
  NoDup (map fst d) -> In (k, v) d -> ColumnCollection.setitem k v d = d.
Proof.
  induction d as [| [k' v'] d IH]; simpl; intros Hnodup Hin;
    [contradiction |].
  inversion Hnodup as [| ? ? Hfresh Hrest]; subst.
  destruct (k' =? k) eqn:E.
  - apply String.eqb_eq in E. subst k'.
    destruct Hin as [Heq | Hin]; [injection Heq as <-; reflexivity |].
    exfalso. apply Hfresh. apply (in_map fst) in Hin. exact Hin.
  - destruct Hin as [Heq | Hin].
    + injection Heq as -> _. rewrite String.eqb_refl in E. discriminate.
    + rewrite IH; [reflexivity | exact Hrest | exact Hin].
Qed.

Lemma c_getitem_key tbl name col :
  c_getitem tbl name = Some col -> key col = name.
Proof.
  unfold c_getitem. intros Hfind. apply find_some in Hfind.
  destruct Hfind as (_ & Hkey). apply String.eqb_eq. exact Hkey.
Qed.

Lemma add_columns_fresh_entries (cols : list Column) :
  NoDup (map key cols) ->
  add_columns cols [] = map (fun col => (key col, col)) cols.
Proof.
  intros Hnodup.
  assert (Hgen : forall d : ColumnCollection.t,
    NoDup (map fst d ++ map key cols) ->
    add_columns cols d = d ++ map (fun col => (key col, col)) cols).
  { clear Hnodup. unfold add_columns.
    induction cols as [| col cols IH]; intros d Hnodup; simpl.
    - rewrite app_nil_r. reflexivity.
    - unfold ColumnCollection.add at 2. rewrite setitem_fresh.
      + rewrite IH; [rewrite <- app_assoc; reflexivity |].
        rewrite map_app, <- app_assoc. exact Hnodup.
      + intros Hin. simpl in Hnodup. apply NoDup_remove_2 in Hnodup.
        apply Hnodup. apply in_or_app. left. exact Hin. }
  apply (Hgen []). exact Hnodup.
Qed.

(** X17: a bare name that is given twice in a key.  If the names are in
    the table, with columns of different keys, and one of them is
    repeated at the end of the key, the attach succeeds, the column
    collection keeps one entry for the repeated name, and the last slot
    is rendered as [None]. *)
Theorem repeated_name_renders_None tbl (names : list string)
    (cols : list Column) (again : string) :
  Forall2 (fun name col => c_getitem tbl name = Some col) names cols ->
  NoDup (map key cols) ->
  In again names ->
  attached_call
    (inr (KeysExpressionOrColumn.__init__ (map ArgName (names ++ [again]))))
    (KeysExpressionOrColumn._set_parent tbl)
    KeysExpressionOrColumn.get_expressions_or_columns
  = inr (map IColumn cols ++ [INone]).
Proof.
  intros Hnames Hnodup Hin.
  assert (Hagain : exists col, c_getitem tbl again = Some col /\ In col cols).
  { clear Hnodup. induction Hnames as [| name col names cols Hcol _ IH];
      [contradiction |].
    destruct Hin as [-> | Hin].
    - exists col. split; [exact Hcol | left; reflexivity].
    - destruct (IH Hin) as (col' & Hcol' & Hin').
      exists col'. split; [exact Hcol' | right; exact Hin']. }
  destruct Hagain as (col & Hcol & Hincol).
  assert (Hres : Forall2 (fun p c => resolved tbl p = Some c)
                   (map ColName (names ++ [again])) (cols ++ [col])).
  { rewrite map_app. apply Forall2_app.
    - clear Hin Hnodup Hincol. induction Hnames; simpl; constructor; assumption.
    - repeat constructor. exact Hcol. }
  unfold KeysExpressionOrColumn.__init__,
    ColumnCollectionMixin._extract_col_expression_collection.
  rewrite collect_names.
  unfold attached_call, outcome, bind, KeysExpressionOrColumn._set_parent,
    on_attr, ColumnCollectionMixin._set_parent, bind, attr. simpl.
  rewrite (add_all_resolved _ _ _ Hres). simpl.
  change (fold_left (fun acc c => ColumnCollection.add c acc)
            (cols ++ [col]) ColumnCollection.empty)
    with (add_columns (cols ++ [col]) []).
  unfold add_columns. rewrite fold_left_app. simpl.
  fold (add_columns cols []). rewrite add_columns_fresh_entries;
    [| exact Hnodup].
  unfold ColumnCollection.add. rewrite setitem_same.
  - unfold ColumnCollection.to_list. rewrite map_map. simpl.
    rewrite map_id. apply Forall2_length in Hnames.
    rewrite pick_shifted; [reflexivity |].
    rewrite length_app. simpl. lia.
  - rewrite map_map. simpl. exact Hnodup.
  - apply in_map_iff. exists col. split; [reflexivity | exact Hincol].
Qed.

Lemma repeated_name_renders_None_witness :
  attached_call
    (inr (KeysExpressionOrColumn.__init__
            (map ArgName (["EventDate"; "UserID"] ++ ["EventDate"]))))
    (KeysExpressionOrColumn._set_parent hits)
    KeysExpressionOrColumn.get_expressions_or_columns
  = inr [IColumn EventDate; IColumn UserID; INone].
Proof.
  apply (repeated_name_renders_None hits ["EventDate"; "UserID"]
           [EventDate; UserID] "EventDate").
  - repeat constructor.
  - repeat constructor; simpl; intuition discriminate.
  - left. reflexivity.
Defined.
